(** * simple-logger-udp: the Graylog UDP transport and the safe logger facade

    A shallow embedding of [src/logger.ts] (with the configuration it reads
    from [src/environment.ts]) and the properties of its forwarding
    transport, severity filter, record formatter and facade.

    The mutable [GraylogTransport] object is a record that is threaded
    through its methods; everything the methods touch outside the object
    (timers, UDP sockets, the console, pino) lives in a second record, the
    Node.js run time [Node], whose [effects] field is the chronological list
    of what the program did to the outside world. *)

From Stdlib Require Import ZArith QArith.
From stdpp Require Import gmap strings list fin_maps pretty.

Local Open Scope Z_scope.

(** ** JavaScript values

    [any] in the source.  Functions, symbols and cyclic objects are not
    represented; an [Error] instance keeps the three properties the program
    reads. *)

#[warnings="-register-all"]
Inductive JsValue : Type :=
  | VUndefined
  | VNull
  | VBool (b : bool)
  | VNum (q : Q)
  | VStr (s : string)
  | VError (name message : string) (stack : option string)
  | VArr (l : list JsValue)
  | VObj (m : gmap string JsValue).

(** ToBoolean: [undefined], [null], [false], [0] and [""] are falsy. *)
Definition truthy (v : JsValue) : bool :=
  match v with
  | VUndefined | VNull => false
  | VBool b => b
  | VNum q => negb (Qeq_bool q 0)
  | VStr s => negb (String.eqb s "")
  | VError _ _ _ | VArr _ | VObj _ => true
  end.

(** [a || b] *)
Definition js_or (a b : JsValue) : JsValue := if truthy a then a else b.

(** [s || d] on strings. *)
Definition str_or (s d : string) : string := if String.eqb s "" then d else s.

(** A thrown exception is carried by its message. *)
Inductive Result (A : Type) : Type :=
  | Ok (a : A)
  | Throw (e : string).
Arguments Ok {A} a.
Arguments Throw {A} e.

(** ** The Node.js run time *)

Inductive ConsoleMethod := console_log | console_info | console_warn | console_error | console_debug.

(** The two closures the transport hands to [setTimeout]:
    [() => { console.log(...); this.setupConnection() }] and
    [() => this.processBuffer()]. *)
Inductive TimerKind := Reconnect | Drain.

Record Timer := { timer_id : nat; timer_kind : TimerKind; timer_delay : Z }.

#[export] Instance TimerKind_eq_dec : EqDecision TimerKind.
Proof. solve_decision. Defined.

#[export] Instance Timer_eq_dec : EqDecision Timer.
Proof. solve_decision. Defined.

Inductive Effect : Type :=
  | Console (method : ConsoleMethod) (text : string)
  | ConsoleFallback (method : ConsoleMethod) (message : JsValue) (args : list JsValue)
  | PinoCall (level : string) (record : gmap string JsValue) (args : list JsValue)
  | SocketOpened (sock : nat)
  | SocketReleased (sock : nat)
  | Datagram (sock : nat) (payload : string) (to_port : Z) (to_host : string)
  | CallbackRun (cb : nat).

Record Node := {
  timers : list Timer;            (* armed, not yet fired or cleared *)
  next_timer : nat;
  open_sockets : gset nat;        (* dgram sockets whose handle is live *)
  next_socket : nat;
  in_flight : list (nat * string);(* sends whose completion callback is due *)
  effects : list Effect
}.

Definition fresh_node : Node :=
  {| timers := []; next_timer := 0; open_sockets := ∅; next_socket := 0;
     in_flight := []; effects := [] |}.

Definition emit (e : Effect) (n : Node) : Node :=
  {| timers := timers n; next_timer := next_timer n;
     open_sockets := open_sockets n; next_socket := next_socket n;
     in_flight := in_flight n; effects := effects n ++ [e] |}.

Definition console (m : ConsoleMethod) (text : string) (n : Node) : Node :=
  emit (Console m text) n.

(** [setTimeout(f, delay)]: returns the new handle. *)
Definition setTimeout (k : TimerKind) (delay : Z) (n : Node) : nat * Node :=
  (next_timer n,
   {| timers := timers n ++ [{| timer_id := next_timer n; timer_kind := k; timer_delay := delay |}];
      next_timer := S (next_timer n);
      open_sockets := open_sockets n; next_socket := next_socket n;
      in_flight := in_flight n; effects := effects n |}).

(** [clearTimeout(h)]: nothing happens when [h] already fired or was cleared. *)
Definition clearTimeout (h : nat) (n : Node) : Node :=
  {| timers := filter (fun tm => timer_id tm ≠ h) (timers n);
     next_timer := next_timer n;
     open_sockets := open_sockets n; next_socket := next_socket n;
     in_flight := in_flight n; effects := effects n |}.

(** [dgram.createSocket('udp4')] when it does not throw. *)
Definition createSocket (n : Node) : nat * Node :=
  (next_socket n,
   {| timers := timers n; next_timer := next_timer n;
      open_sockets := {[ next_socket n ]} ∪ open_sockets n;
      next_socket := S (next_socket n);
      in_flight := in_flight n;
      effects := effects n ++ [SocketOpened (next_socket n)] |}).

(** [socket.close()]: releases the handle; on a socket that is already
    closed dgram throws ERR_SOCKET_DGRAM_NOT_RUNNING and releases nothing. *)
Definition socket_close (c : nat) (n : Node) : Result Node :=
  if decide (c ∈ open_sockets n) then
    Ok {| timers := timers n; next_timer := next_timer n;
          open_sockets := open_sockets n ∖ {[ c ]};
          next_socket := next_socket n;
          in_flight := in_flight n;
          effects := effects n ++ [SocketReleased c] |}
  else Throw "Not running".

(** [socket.send(message, port, host, cb)]: on a closed socket dgram throws;
    otherwise the datagram is handed to the socket and [cb] is due later. *)
Definition socket_send (c : nat) (payload : string) (p : Z) (h : string) (n : Node) : Result Node :=
  if decide (c ∈ open_sockets n) then
    Ok {| timers := timers n; next_timer := next_timer n;
          open_sockets := open_sockets n; next_socket := next_socket n;
          in_flight := in_flight n ++ [(c, payload)];
          effects := effects n ++ [Datagram c payload p h] |}
  else Throw "Not running".

(** Calling an [item.callback]; the only callback the program ever passes is
    [() => {}]. *)
Definition run_callback (cb : nat) (n : Node) : Node := emit (CallbackRun cb) n.

(** ** class GraylogTransport *)

Record Item := { log : JsValue; callback : nat }.

Record GraylogTransport := {
  client : option nat;
  host : string;
  port : Z;
  connected : bool;
  buffer : list Item;
  maxBufferSize : nat;
  reconnectTimeout : option nat
}.

Definition set_client (c : option nat) (t : GraylogTransport) : GraylogTransport :=
  {| client := c; host := host t; port := port t; connected := connected t;
     buffer := buffer t; maxBufferSize := maxBufferSize t;
     reconnectTimeout := reconnectTimeout t |}.

Definition set_connected (b : bool) (t : GraylogTransport) : GraylogTransport :=
  {| client := client t; host := host t; port := port t; connected := b;
     buffer := buffer t; maxBufferSize := maxBufferSize t;
     reconnectTimeout := reconnectTimeout t |}.

Definition set_buffer (b : list Item) (t : GraylogTransport) : GraylogTransport :=
  {| client := client t; host := host t; port := port t; connected := connected t;
     buffer := b; maxBufferSize := maxBufferSize t;
     reconnectTimeout := reconnectTimeout t |}.

Definition set_reconnectTimeout (r : option nat) (t : GraylogTransport) : GraylogTransport :=
  {| client := client t; host := host t; port := port t; connected := connected t;
     buffer := buffer t; maxBufferSize := maxBufferSize t;
     reconnectTimeout := r |}.

Definition World : Type := GraylogTransport * Node.

Section Transport.

(** [typeof log === 'string' ? log : JSON.stringify(log)] followed by
    [Buffer.from]: the payload, or the message of the exception thrown. *)
Variable encode : JsValue → string + string.

Definition scheduleReconnect (t : GraylogTransport) (n : Node) : World :=
  let n1 := match reconnectTimeout t with
            | Some h => clearTimeout h n
            | None => n
            end in
  let '(h', n2) := setTimeout Reconnect 30000 n1 in
  (set_reconnectTimeout (Some h') t, n2).

(** [sendLog] itself leaves the object alone: the only assignments are in the
    completion callback of [send], which is [sendCompleted] below. *)
Definition sendLog (l : JsValue) (t : GraylogTransport) (n : Node) : Node :=
  match client t with
  | None => n
  | Some c =>
      match encode l with
      | inr e => console console_error ("Erro ao formatar/enviar log: " +:+ e) n
      | inl payload =>
          match socket_send c payload (port t) (host t) n with
          | Ok n' => n'
          | Throw e => console console_error ("Erro ao formatar/enviar log: " +:+ e) n
          end
      end
  end.

(** The callback [(err) => { if (err) {...} }] of the oldest send in flight. *)
Definition sendCompleted (err : option string) (t : GraylogTransport) (n : Node) : World :=
  match in_flight n with
  | [] => (t, n)
  | _ :: rest =>
      let n0 := {| timers := timers n; next_timer := next_timer n;
                   open_sockets := open_sockets n; next_socket := next_socket n;
                   in_flight := rest; effects := effects n |} in
      match err with
      | None => (t, n0)
      | Some e =>
          let n1 := console console_error ("Erro ao enviar log para Graylog: " +:+ e) n0 in
          scheduleReconnect (set_connected false t) n1
      end
  end.

Definition processItem (t : GraylogTransport) (n : Node) (item : Item) : Node :=
  run_callback (callback item) (sendLog (log item) t n).

Definition processBuffer (t : GraylogTransport) (n : Node) : World :=
  if (0 <? length (buffer t))%nat && connected t && bool_decide (is_Some (client t)) then
    let k := Nat.min 10 (length (buffer t)) in
    let batch := take k (buffer t) in
    let t1 := set_buffer (drop k (buffer t)) t in
    let n1 := foldl (processItem t1) n batch in
    if (0 <? length (buffer t1))%nat
    then (t1, snd (setTimeout Drain 100 n1))
    else (t1, n1)
  else (t, n).

(** [fault] is the message of the exception [dgram.createSocket] throws, if
    it throws. *)
Definition setupConnection (fault : option string) (t : GraylogTransport) (n : Node) : World :=
  match fault with
  | None =>
      let '(c, n1) := createSocket n in
      processBuffer (set_connected true (set_client (Some c) t)) n1
  | Some e =>
      let n1 := console console_error ("Erro ao configurar cliente UDP: " +:+ e) n in
      scheduleReconnect (set_connected false t) n1
  end.

(** The ['error'] listener installed by [setupConnection]. *)
Definition socketError (e : string) (t : GraylogTransport) (n : Node) : World :=
  let n1 := console console_error ("Erro no cliente UDP Graylog: " +:+ e) n in
  scheduleReconnect (set_connected false t) n1.

Definition new_GraylogTransport (h : string) (p : Z) (fault : option string) (n : Node) : World :=
  setupConnection fault
    {| client := None; host := h; port := p; connected := false;
       buffer := []; maxBufferSize := 100; reconnectTimeout := None |} n.

Definition write (l : JsValue) (cb : nat) (t : GraylogTransport) (n : Node) : World :=
  if negb (connected t) || negb (bool_decide (is_Some (client t))) then
    if (length (buffer t) <? maxBufferSize t)%nat then
      (set_buffer (buffer t ++ [{| log := l; callback := cb |}]) t, n)
    else
      (set_buffer (drop 1 (buffer t) ++ [{| log := l; callback := cb |}]) t, n)
  else
    (t, run_callback cb (sendLog l t n)).

(** [close] assigns no field of the object. *)
Definition close (t : GraylogTransport) (n : Node) : Node :=
  let n1 := match reconnectTimeout t with
            | Some h => clearTimeout h n
            | None => n
            end in
  match client t with
  | Some c =>
      match socket_close c n1 with
      | Ok n2 => n2
      | Throw _ => n1
      end
  | None => n1
  end.

(** ** The event loop

    What can happen to a transport: its two public methods are called, one
    of its timers fires, a send completes, or the socket emits ['error']. *)

Inductive Input :=
  | InWrite (l : JsValue) (cb : nat)
  | InClose
  | InTimer (tm : Timer) (fault : option string)
  | InSendCompleted (err : option string)
  | InSocketError (e : string).

(** The armed timer [tm] expires: it leaves the timer list and its closure
    runs.  [fault] is the outcome of [createSocket] should the closure reach
    it. *)
Definition fireTimer (tm : Timer) (fault : option string) (t : GraylogTransport) (n : Node) : World :=
  if decide (tm ∈ timers n) then
    let n1 := clearTimeout (timer_id tm) n in
    match timer_kind tm with
    | Reconnect =>
        setupConnection fault t (console console_log "Tentando reconectar ao Graylog..." n1)
    | Drain => processBuffer t n1
    end
  else (t, n).

Definition step (i : Input) (w : World) : World :=
  match i with
  | InWrite l cb => write l cb w.1 w.2
  | InClose => (w.1, close w.1 w.2)
  | InTimer tm fault => fireTimer tm fault w.1 w.2
  | InSendCompleted err => sendCompleted err w.1 w.2
  | InSocketError e => socketError e w.1 w.2
  end.

Definition run (inputs : list Input) (w : World) : World := foldl (fun w i => step i w) w inputs.

Inductive reachable : World → Prop :=
  | reachable_new h p fault : reachable (new_GraylogTransport h p fault fresh_node)
  | reachable_step i w : reachable w → reachable (step i w).

End Transport.

(** ** Configuration ([src/environment.ts])

    Every variable is the string found in the process environment, [""] when
    it is unset; the port went through [Number], [None] standing for [NaN]
    (and [parseInt(String(port), 10)] gives an integer port back unchanged). *)

Record Environment := {
  graylogApplicationName : string;
  graylogEnvironment : string;
  graylogHost : string;
  graylogProduct : string;
  graylogPort : option Z;
  graylogEnabled : string;
  graylogLogLevel : string
}.

Record GraylogConfig := {
  cfg_host : string;
  cfg_port : option Z;
  cfg_product : string;
  cfg_applicationName : string;
  cfg_environment : string;
  cfg_enabled : string
}.

Definition graylogConfig_of (e : Environment) : GraylogConfig :=
  {| cfg_host := graylogHost e; cfg_port := graylogPort e;
     cfg_product := graylogProduct e;
     cfg_applicationName := graylogApplicationName e;
     cfg_environment := graylogEnvironment e;
     cfg_enabled := graylogEnabled e |}.

(** Truthiness of a string. *)
Definition enabled (c : GraylogConfig) : bool := negb (String.eqb (cfg_enabled c) "").

Definition parsePort (p : option Z) : option Z := p.

(** [hostname] is what [os.hostname()] returned. *)
Definition defaultLogValues_of (c : GraylogConfig) (hostname : string) : gmap string JsValue :=
  {[ "version" := VStr "1.1";
     "host" := VStr (str_or hostname "unknown-host");
     "short_message" := VStr "";
     "timestamp" := VNum 0;
     "_application_name" := VStr (str_or (cfg_applicationName c) "default-app");
     "_environment" := VStr (str_or (cfg_environment c) "development");
     "_product" := VStr (str_or (cfg_product c) "default-product");
     "_service_name" := VStr (str_or (cfg_applicationName c) "default-app");
     "_service_version" := VStr "1.0.0" ]}.

(** ** Severity levels and the filter *)

Definition LOG_LEVELS : gmap string Z :=
  {[ "fatal" := 2; "error" := 3; "warn" := 4; "info" := 6; "debug" := 7 ]}.

(** [LOG_LEVELS.k] for a key written in the source. *)
Definition LOG_LEVELS_at (k : string) : Z := default 0 (LOG_LEVELS !! k).

(** [LOG_LEVELS[configLogLevel]] is [undefined] for a key the table lacks
    (or a member of [Object.prototype]); [logLevel <= undefined] compares
    with [NaN] and is [false]. *)
Definition shouldLog (e : Environment) (logLevel : Z) : bool :=
  let configLogLevel := str_or (graylogLogLevel e) "info" in
  match LOG_LEVELS !! configLogLevel with
  | Some configLevelValue => logLevel <=? configLevelValue
  | None => false
  end.

(** ** formatLog *)

Definition get (o : gmap string JsValue) (k : string) : JsValue := default VUndefined (o !! k).

(** Own enumerable properties of a value that is neither a string nor an
    [Error]: what [message.k] reads and what [{...rest} = message] copies. *)
Definition own_props (v : JsValue) : gmap string JsValue :=
  match v with
  | VObj m => m
  | VArr l => list_to_map (imap (fun i x => (pretty i, x)) l)
  | _ => ∅
  end.

Definition opt_str (o : option string) : JsValue :=
  match o with Some s => VStr s | None => VUndefined end.

(** [now] is [Date.now()] in milliseconds, [uuid] what [uuidv4()] returned. *)
Definition formatLog (defaults : gmap string JsValue) (now : Z) (uuid : string)
    (message : JsValue) (level : Z) : Result (gmap string JsValue) :=
  let timestamp := VNum (Qmake now 1000) in
  let correlationId := VStr uuid in
  match message with
  | VStr s =>
      Ok (<["_correlation_id" := correlationId]>
          (<["level" := VNum (inject_Z level)]>
          (<["timestamp" := timestamp]>
          (<["short_message" := VStr s]> defaults))))
  | VError name msg stack =>
      Ok (<["_correlation_id" := correlationId]>
          (<["_error_code" := VStr name]>
          (<["_error_message" := VStr msg]>
          (<["level" := VNum (inject_Z (LOG_LEVELS_at "error"))]>
          (<["timestamp" := timestamp]>
          (<["full_message" := opt_str stack]>
          (<["short_message" := VStr msg]> defaults)))))))
  | VUndefined => Throw "Cannot read properties of undefined (reading 'msg')"
  | VNull => Throw "Cannot read properties of null (reading 'msg')"
  | _ =>
      let o := own_props message in
      let shortMessage :=
        js_or (js_or (js_or (get o "msg") (get o "message")) (get o "short_message"))
              (VStr "No Content") in
      let fullMessage :=
        js_or (js_or (get o "fullMessage") (get o "full_message")) (get o "details") in
      let rest := delete "full_message" (delete "short_message" (delete "message" (delete "msg" o))) in
      let standardLog :=
        rest ∪
        (<["_correlation_id" := js_or (get o "_correlation_id") correlationId]>
        (<["level" := VNum (inject_Z level)]>
        (<["timestamp" := timestamp]>
        (<["short_message" := shortMessage]> defaults)))) in
      Ok (if truthy fullMessage then <["full_message" := fullMessage]> standardLog
          else standardLog)
  end.

(** ** Module state of [logger.ts] and the facade *)

Record LoggerModule := {
  env : Environment;
  graylogConfig : GraylogConfig;
  defaultLogValues : gmap string JsValue;
  graylogTransport : option GraylogTransport;
  node : Node
}.

Definition with_node (n : Node) (m : LoggerModule) : LoggerModule :=
  {| env := env m; graylogConfig := graylogConfig m;
     defaultLogValues := defaultLogValues m;
     graylogTransport := graylogTransport m; node := n |}.

Definition with_transport (w : World) (m : LoggerModule) : LoggerModule :=
  {| env := env m; graylogConfig := graylogConfig m;
     defaultLogValues := defaultLogValues m;
     graylogTransport := Some w.1; node := w.2 |}.

#[export] Instance Result_bind : MBind Result :=
  fun A B f r => match r with Ok a => f a | Throw e => Throw e end.

(** [try { body } catch (err) { handler }] *)
Definition try_catch {A} (body : Result A) (handler : string → Result A) : Result A :=
  match body with
  | Ok a => Ok a
  | Throw e => handler e
  end.

(** The four level-tagged methods of the pino logger and of the console. *)
Inductive Level := Linfo | Lerror | Lwarn | Ldebug.

Definition level_key (l : Level) : string :=
  match l with Linfo => "info" | Lerror => "error" | Lwarn => "warn" | Ldebug => "debug" end.

Definition level_console (l : Level) : ConsoleMethod :=
  match l with
  | Linfo => console_info | Lerror => console_error
  | Lwarn => console_warn | Ldebug => console_debug
  end.

(** [logger.<level>(record, ...args)]; [fault] is the exception pino throws,
    if it throws. *)
Definition pino (fault : option string) (l : Level) (record : gmap string JsValue)
    (args : list JsValue) (n : Node) : Result Node :=
  match fault with
  | Some e => Throw e
  | None => Ok (emit (PinoCall (level_key l) record args) n)
  end.

(** The console is taken not to throw: Node's global console ignores errors
    of its streams, and a [JsValue] has no inspection hook that could. *)
Definition console_fallback (l : Level) (message : JsValue) (args : list JsValue)
    (m : LoggerModule) : Result LoggerModule :=
  Ok (with_node (emit (ConsoleFallback (level_console l) message args) (node m)) m).

Section Facade.

Variable encode : JsValue → string + string.

Definition sendToGraylog (l : gmap string JsValue) (m : LoggerModule) : LoggerModule :=
  match graylogTransport m with
  | Some t =>
      if enabled (graylogConfig m)
      then with_transport (write encode (VObj l) 0%nat t (node m)) m
      else m
  | None => m
  end.

(** The body shared by the eight emit functions: [ctx] is [None] for the
    methods of [safeLogger] and the bound [contextValues] for those that
    [createContext] returns. *)
Definition emit_try (l : Level) (ctx : option (gmap string JsValue))
    (now : Z) (uuid : string) (fault : option string)
    (message : JsValue) (args : list JsValue) (m : LoggerModule) : Result LoggerModule :=
  if negb (shouldLog (env m) (LOG_LEVELS_at (level_key l))) then Ok m
  else
    baseLog ← formatLog (defaultLogValues m) now uuid message (LOG_LEVELS_at (level_key l));
    let contextualLog := match ctx with
                         | Some contextValues => contextValues ∪ baseLog
                         | None => baseLog
                         end in
    n ← pino fault l contextualLog args (node m);
    Ok (sendToGraylog contextualLog (with_node n m)).

Definition emit_log (l : Level) (ctx : option (gmap string JsValue))
    (now : Z) (uuid : string) (fault : option string)
    (message : JsValue) (args : list JsValue) (m : LoggerModule) : Result LoggerModule :=
  try_catch (emit_try l ctx now uuid fault message args m)
            (fun _ => console_fallback l message args m).

Definition safeLogger_info := emit_log Linfo None.
Definition safeLogger_debug := emit_log Ldebug None.

(** [createContext(contextData).<level>]; [contextValues = { ...contextData }]. *)
Definition context_info (contextData : gmap string JsValue) := emit_log Linfo (Some contextData).
Definition context_debug (contextData : gmap string JsValue) := emit_log Ldebug (Some contextData).


Definition safeLogger_isEnabled (m : LoggerModule) : bool := enabled (graylogConfig m).

(** *** testGraylogConnection *)

Record TestResult := { success : bool; message : string }.

(** What happens to the one-off socket of the fallback branch, which the
    function awaits: [createSocket] throws, the socket emits ['error'], or
    the send callback runs (with or without [err]) and the socket is closed
    a second later. *)
Inductive DirectOutcome :=
  | DirectCreateThrows (e : string)
  | DirectErrorEvent
  | DirectSendDone (err : bool).

Definition established (testId : string) : string :=
  "Conexão com Graylog estabelecida. Teste enviado com ID: " +:+ testId.

Definition testGraylogConnection (now : Z) (uuid : string) (direct : DirectOutcome)
    (m : LoggerModule) : TestResult * LoggerModule :=
  if negb (enabled (graylogConfig m)) then
    ({| success := false; message := "Graylog não está ativado nas configurações." |}, m)
  else
    let testId := "test-" +:+ pretty now in
    match parsePort (cfg_port (graylogConfig m)) with
    | None => ({| success := false; message := "Porta inválida: NaN" |}, m)
    | Some p =>
        let probe : gmap string JsValue :=
          {[ "short_message" := VStr ("Teste de conexão [" +:+ testId +:+ "]");
             "_test_id" := VStr testId;
             "_tags" := VArr [VStr "test"] ]} in
        match formatLog (defaultLogValues m) now uuid (VObj probe) (LOG_LEVELS_at "info") with
        | Throw e =>
            ({| success := false; message := "Erro na conexão com Graylog: " +:+ e |}, m)
        | Ok testLog =>
            match graylogTransport m with
            | Some t =>
                ({| success := true; message := established testId |},
                 with_transport (write encode (VObj testLog) 0%nat t (node m)) m)
            | None =>
                match direct with
                | DirectCreateThrows e =>
                    ({| success := false; message := "Erro na conexão com Graylog: " +:+ e |}, m)
                | _ =>
                    let '(c, n1) := createSocket (node m) in
                    match encode (VObj testLog) with
                    | inr e =>
                        ({| success := false; message := "Erro na conexão com Graylog: " +:+ e |},
                         with_node n1 m)
                    | inl payload =>
                        let n2 := emit (Datagram c payload p (cfg_host (graylogConfig m))) n1 in
                        let n3 := match socket_close c n2 with Ok n' => n' | Throw _ => n2 end in
                        let result := match direct with DirectSendDone false => true | _ => false end in
                        ({| success := result;
                            message := if result then established testId
                                       else "Falha ao enviar mensagem para Graylog." |},
                         with_node n3 m)
                    end
                end
            end
        end
    end.

(** *** Module initialisation: lines 27-47 and 193-202. *)
Definition load (e : Environment) (hostname : string) (fault : option string) (n : Node) : LoggerModule :=
  let c := graylogConfig_of e in
  let m0 := {| env := e; graylogConfig := c;
               defaultLogValues := defaultLogValues_of c hostname;
               graylogTransport := None; node := n |} in
  if enabled c then
    match parsePort (cfg_port c) with
    | Some p =>
        if negb (String.eqb (cfg_host c) "") then
          let w := new_GraylogTransport encode (cfg_host c) p fault n in
          with_transport
            (w.1, console console_log
                    ("Transporte UDP para Graylog configurado em " +:+ cfg_host c +:+ ":" +:+ pretty p)
                    w.2) m0
        else m0
    | None => m0
    end
  else m0.

End Facade.

(** ** Observations on the run time, used to state the properties *)

(** Payloads handed to a socket, in order. *)
Definition datagrams (es : list Effect) : list string :=
  omap (fun e => match e with Datagram _ payload _ _ => Some payload | _ => None end) es.


(** How many times the handle of socket [c] was released. *)
Definition releases (c : nat) (es : list Effect) : nat :=
  length (omap (fun e => match e with
                         | SocketReleased c' => if decide (c' = c) then Some c' else None
                         | _ => None
                         end) es).

(** How many sockets were opened. *)
Definition sockets_opened (es : list Effect) : nat :=
  length (omap (fun e => match e with SocketOpened c => Some c | _ => None end) es).




(** A sequence of [write] calls. *)
Definition writes (encode : JsValue → string + string) (items : list Item) (w : World) : World :=
  foldl (fun w i => write encode (log i) (callback i) w.1 w.2) w items.

(** What a node keeps while records are sent. *)
Definition same_frame (n n' : Node) : Prop :=
  timers n' = timers n ∧ next_timer n' = next_timer n ∧
  open_sockets n' = open_sockets n ∧ next_socket n' = next_socket n.


(** Bookkeeping of timer handles: handles are allotted in increasing order,
    the only reconnect timer that can be armed is the one recorded in
    [reconnectTimeout], and that handle is never a drain timer's. *)
Definition handles_ok (r : option nat) (ts : list Timer) (next : nat) : Prop :=
  (∀ tm, tm ∈ ts → (timer_id tm < next)%nat) ∧
  (∀ h, r = Some h → (h < next)%nat) ∧
  (∀ tm, tm ∈ ts → timer_kind tm = Reconnect → r = Some (timer_id tm)) ∧
  (∀ tm, tm ∈ ts → timer_kind tm = Drain → r ≠ Some (timer_id tm)).

Definition timers_ok (w : World) : Prop :=
  handles_ok (reconnectTimeout w.1) (timers w.2) (next_timer w.2).

(** ** Further definitions: the rest of the three files *)

(** Values that reach the third branch of [formatLog]: neither a string,
    nor an [Error], nor [null]/[undefined]. *)
Definition is_structured (v : JsValue) : bool :=
  match v with
  | VBool _ | VNum _ | VArr _ | VObj _ => true
  | _ => false
  end.

(** [LOG_LEVEL_NAMES], the table from number back to name. *)
Definition LOG_LEVEL_NAMES : gmap Z string :=
  {[ 2 := "fatal"; 3 := "error"; 4 := "warn"; 6 := "info"; 7 := "debug" ]}.

(** [src/environment.ts]: [penv] is [process.env] once dotenv has run,
    [Number] the conversion applied to GRAYLOG_PORT. *)
Definition getEnvironmentVariable (penv : gmap string string) (environmentVariableName : string) : string :=
  match penv !! environmentVariableName with
  | Some environmentVariable => environmentVariable
  | None => ""
  end.

Definition environment_of (Number : string → option Z) (penv : gmap string string) : Environment :=
  {| graylogApplicationName := getEnvironmentVariable penv "GRAYLOG_APPLICATION_NAME";
     graylogEnvironment := getEnvironmentVariable penv "GRAYLOG_ENVIRONMENT";
     graylogHost := getEnvironmentVariable penv "GRAYLOG_HOST";
     graylogProduct := getEnvironmentVariable penv "GRAYLOG_PRODUCT";
     graylogPort := Number (getEnvironmentVariable penv "GRAYLOG_PORT");
     graylogEnabled := getEnvironmentVariable penv "GRAYLOG_ENABLED";
     graylogLogLevel := getEnvironmentVariable penv "GRAYLOG_LOG_LEVEL" |}.

(** The configuration module behind [safeLogger.configure] (lines 13-62 of
    [src/index.ts]): [currentConfig] is the module's only state. *)
Module config.

Definition defaultConfig : gmap string JsValue :=
  {[ "graylogHost" := VStr "localhost";
     "graylogPort" := VNum 12201;
     "graylogProduct" := VStr "default-product";
     "graylogApplicationName" := VStr "default-app";
     "graylogEnvironment" := VStr "development";
     "graylogEnabled" := VBool false;
     "logLevel" := VStr "info" ]}.

(** [currentConfig = { ...defaultConfig, ...config }] *)
Definition configureLogger (config currentConfig : gmap string JsValue) : gmap string JsValue :=
  config ∪ defaultConfig.

Definition getValue (currentConfig : gmap string JsValue) (key : string) : JsValue :=
  get currentConfig key.

Definition getConfig (currentConfig : gmap string JsValue) : gmap string JsValue :=
  currentConfig.

End config.

(** The reconnect timers among the armed ones. *)
Definition reconnect_timers (ts : list Timer) : list Timer :=
  filter (fun tm => timer_kind tm = Reconnect) ts.

(** The armed reconnect timer expires and [createSocket] throws [e]. *)
Definition failedReconnect (encode : JsValue → string + string) (e : string) (w : World) : World :=
  match reconnectTimeout w.1 with
  | Some h =>
      fireTimer encode {| timer_id := h; timer_kind := Reconnect; timer_delay := 30000 |}
        (Some e) w.1 w.2
  | None => w
  end.

(** Waiting for reconnection: disconnected, with the timer recorded in
    [reconnectTimeout] armed. *)
Definition awaiting_reconnect (w : World) : Prop :=
  connected w.1 = false ∧
  ∃ h, reconnectTimeout w.1 = Some h ∧
       {| timer_id := h; timer_kind := Reconnect; timer_delay := 30000 |} ∈ timers w.2.

(** ** Sample configurations and runs *)

(** A stand-in for [JSON.stringify]: strings go out as they are, a record
    as its short_message in braces; [undefined] makes [Buffer.from] throw. *)
Definition toy_encode (v : JsValue) : string + string :=
  match v with
  | VStr s => inl s
  | VObj m => match m !! "short_message" with
              | Some (VStr s) => inl ("{" +:+ s +:+ "}")
              | _ => inl "{}"
              end
  | VUndefined => inr "The first argument must be of type string"
  | _ => inl "null"
  end.

Definition sample_env (enabled_var level_var : string) : Environment :=
  {| graylogApplicationName := "billing"; graylogEnvironment := "production";
     graylogHost := "graylog.local"; graylogProduct := "shop";
     graylogPort := Some 12201; graylogEnabled := enabled_var;
     graylogLogLevel := level_var |}.

(** The module loaded with Graylog enabled at level "warn", socket open. *)
Definition module_warn : LoggerModule :=
  load toy_encode (sample_env "true" "warn") "web-1" None fresh_node.

(** The module loaded with Graylog enabled at level "debug", socket open. *)
Definition module_debug : LoggerModule :=
  load toy_encode (sample_env "true" "debug") "web-1" None fresh_node.

(** The module loaded with GRAYLOG_ENABLED unset. *)
Definition module_disabled : LoggerModule :=
  load toy_encode (sample_env "" "info") "web-1" None fresh_node.

(** A transport whose socket could be opened, and one whose could not. *)
Definition world_connected : World :=
  new_GraylogTransport toy_encode "graylog.local" 12201 None fresh_node.

Definition world_disconnected : World :=
  new_GraylogTransport toy_encode "graylog.local" 12201 (Some "EMFILE") fresh_node.

Definition numbered (i : nat) : Item :=
  {| log := VStr (pretty i); callback := i |}.

(** Eleven records are queued while the socket is unavailable, the reconnect
    timer fires and the socket opens (ten records go out, a drain timer is
    armed for the eleventh), then [close] is called. *)
Definition closed_mid_drain : list Input :=
  ((fun i => InWrite (log (numbered i)) (callback (numbered i))) <$> seq 1 11)
  ++ [InTimer {| timer_id := 0; timer_kind := Reconnect; timer_delay := 30000 |} None;
      InClose].

Definition world_closed_mid_drain : World :=
  run toy_encode closed_mid_drain world_disconnected.

(** The same run stopped before [close]: connected, ten records sent, the
    eleventh queued behind an armed drain timer. *)
Definition world_draining : World :=
  run toy_encode
    (((fun i => InWrite (log (numbered i)) (callback (numbered i))) <$> seq 1 11)
     ++ [InTimer {| timer_id := 0; timer_kind := Reconnect; timer_delay := 30000 |} None])
    world_disconnected.

(** The module loaded with Graylog enabled while no socket can be opened. *)
Definition module_offline : LoggerModule :=
  load toy_encode (sample_env "true" "warn") "web-1" (Some "EMFILE") fresh_node.

(** An object message that carries its own level and correlation id. *)
Definition sample_object : JsValue :=
  VObj {[ "msg" := VStr "order shipped"; "message" := VStr "ignored";
          "level" := VNum 1; "_correlation_id" := VStr "";
          "full_message" := VStr ""; "details" := VStr "parcel 42" ]}.

(** * Properties *)

Section Properties.

Variable encode : JsValue → string + string.

(** ** Severity filter *)

Lemma LOG_LEVELS_lookup (name : string) :
  LOG_LEVELS !! name =
    if decide (name = "fatal") then Some 2
    else if decide (name = "error") then Some 3
    else if decide (name = "warn") then Some 4
    else if decide (name = "info") then Some 6
    else if decide (name = "debug") then Some 7
    else None.
Proof.
  unfold LOG_LEVELS.
  repeat (case_decide; [subst; reflexivity|]).
  rewrite !lookup_insert_ne by congruence. apply lookup_singleton_ne. congruence.
Qed.

Lemma shouldLog_spec (e : Environment) (v level : Z) :
  LOG_LEVELS !! str_or (graylogLogLevel e) "info" = Some v →
  shouldLog e level = true ↔ level ≤ v.
Proof.
  intros H. unfold shouldLog. rewrite H. apply Z.leb_le.
Qed.

Lemma emit_log_suppressed (l : Level) ctx now uuid fault msg args (m : LoggerModule) :
  shouldLog (env m) (LOG_LEVELS_at (level_key l)) = false →
  emit_log encode l ctx now uuid fault msg args m = Ok m.
Proof.
  intros H. unfold emit_log, emit_try. rewrite H. reflexivity.
Qed.

Lemma emit_log_passes (l : Level) ctx now uuid msg args (m : LoggerModule) baseLog :
  shouldLog (env m) (LOG_LEVELS_at (level_key l)) = true →
  formatLog (defaultLogValues m) now uuid msg (LOG_LEVELS_at (level_key l)) = Ok baseLog →
  let record := match ctx with Some c => c ∪ baseLog | None => baseLog end in
  emit_log encode l ctx now uuid None msg args m =
    Ok (sendToGraylog encode record
          (with_node (emit (PinoCall (level_key l) record args) (node m)) m)).
Proof.
  intros H F. unfold emit_log, emit_try. rewrite H. simpl. rewrite F. reflexivity.
Qed.

(** C8: the severity filter holds exactly when [level <= configuredMinimum]
    on the scale fatal=2, error=3, warn=4, info=6, debug=7; with the minimum
    configured at "warn", the debug and info emitters (plain and
    context-bound) return without touching any state, so nothing reaches the
    transport, while a record emitted through error or warn is handed to the
    transport's [write]. *)
Theorem shouldLog_severity_filter (m : LoggerModule) (configuredMinimum : Z) :
  LOG_LEVELS !! str_or (graylogLogLevel (env m)) "info" = Some configuredMinimum →
  (∀ level, shouldLog (env m) level = true ↔ level ≤ configuredMinimum) ∧
  (LOG_LEVELS_at "fatal" = 2 ∧ LOG_LEVELS_at "error" = 3 ∧ LOG_LEVELS_at "warn" = 4 ∧
   LOG_LEVELS_at "info" = 6 ∧ LOG_LEVELS_at "debug" = 7) ∧
  (graylogLogLevel (env m) = "warn" →
   configuredMinimum = 4 ∧
   shouldLog (env m) 7 = false ∧ shouldLog (env m) 6 = false ∧
   shouldLog (env m) 3 = true ∧ shouldLog (env m) 4 = true ∧
   (∀ ctx now uuid fault msg args,
      safeLogger_debug encode now uuid fault msg args m = Ok m ∧
      safeLogger_info encode now uuid fault msg args m = Ok m ∧
      context_debug encode ctx now uuid fault msg args m = Ok m ∧
      context_info encode ctx now uuid fault msg args m = Ok m) ∧
   (∀ l now uuid msg args baseLog t,
      l = Lerror ∨ l = Lwarn →
      graylogTransport m = Some t →
      enabled (graylogConfig m) = true →
      formatLog (defaultLogValues m) now uuid msg (LOG_LEVELS_at (level_key l)) = Ok baseLog →
      emit_log encode l None now uuid None msg args m =
        Ok (with_transport
              (write encode (VObj baseLog) 0%nat t
                 (emit (PinoCall (level_key l) baseLog args) (node m))) m))).
Proof.
  intros Hcfg. split; [|split].
  - intros level. by apply shouldLog_spec.
  - by vm_compute.
  - intros Hwarn.
    assert (Hmin : configuredMinimum = 4).
    { rewrite Hwarn in Hcfg. vm_compute in Hcfg. congruence. }
    subst configuredMinimum.
    assert (Hs : ∀ level, shouldLog (env m) level = (level <=? 4)).
    { intros level. unfold shouldLog. by rewrite Hcfg. }
    split; [done|]. rewrite !Hs. repeat split; try done.
    + apply emit_log_suppressed. by rewrite Hs.
    + apply emit_log_suppressed. by rewrite Hs.
    + apply emit_log_suppressed. by rewrite Hs.
    + apply emit_log_suppressed. by rewrite Hs.
    + intros l now uuid msg args baseLog t Hl Ht Hen F.
      rewrite (emit_log_passes l None now uuid msg args m baseLog); [|by destruct Hl; subst; rewrite Hs|done].
      unfold sendToGraylog. simpl. rewrite Ht, Hen. reflexivity.
Qed.

(** C10: a configured level that is non-empty and not one of fatal, error,
    warn, info, debug makes the filter false at every level; an empty
    (unset) level is read as "info". *)
Theorem shouldLog_unknown_level (e : Environment) :
  (graylogLogLevel e ≠ "" →
   graylogLogLevel e ∉ ["fatal"; "error"; "warn"; "info"; "debug"] →
   ∀ level, shouldLog e level = false) ∧
  (graylogLogLevel e = "" → ∀ level, shouldLog e level = (level <=? 6)).
Proof.
  split.
  - intros Hne Hnot level. unfold shouldLog, str_or.
    destruct (String.eqb_spec (graylogLogLevel e) ""); [done|].
    rewrite LOG_LEVELS_lookup.
    repeat (destruct (decide _) as [Heq|_]; [exfalso; apply Hnot; rewrite Heq; set_solver|]).
    reflexivity.
  - intros Hempty level. unfold shouldLog. rewrite Hempty. reflexivity.
Qed.

(** ** formatLog *)

(** C9: for an Error value [formatLog] ignores its level argument and tags
    the record 3, with the error's message as short_message, its stack as
    full_message and its name as _error_code; so an Error emitted through
    any of the level-tagged functions that passes the filter is logged and
    forwarded with level 3. *)
Theorem formatLog_error_is_level_3 (defaults : gmap string JsValue) (now : Z) (uuid : string)
    (name msg : string) (stack : option string) (level : Z) :
  ∃ r, formatLog defaults now uuid (VError name msg stack) level = Ok r ∧
       r !! "level" = Some (VNum (inject_Z 3)) ∧
       r !! "short_message" = Some (VStr msg) ∧
       r !! "full_message" = Some (opt_str stack) ∧
       r !! "_error_code" = Some (VStr name) ∧
       r !! "_error_message" = Some (VStr msg) ∧
       (∀ l args m,
          defaultLogValues m = defaults →
          shouldLog (env m) (LOG_LEVELS_at (level_key l)) = true →
          emit_log encode l None now uuid None (VError name msg stack) args m =
            Ok (sendToGraylog encode r
                  (with_node (emit (PinoCall (level_key l) r args) (node m)) m))).
Proof.
  eexists. split; [reflexivity|].
  repeat split; try (by simplify_map_eq).
  intros l args m Hd Hs.
  by rewrite (emit_log_passes l None now uuid (VError name msg stack) args m _ Hs)
    by (rewrite Hd; reflexivity).
Qed.

(** ** testGraylogConnection *)

(** C7 (as the code has it): with the feature disabled,
    [testGraylogConnection] returns success = false with the message
    "Graylog não está ativado nas configurações." and leaves the whole
    module state, hence the set of sockets, untouched. *)
Theorem testGraylogConnection_disabled (now : Z) (uuid : string) (direct : DirectOutcome)
    (m : LoggerModule) :
  enabled (graylogConfig m) = false →
  testGraylogConnection encode now uuid direct m =
    ({| success := false; message := "Graylog não está ativado nas configurações." |}, m) ∧
  sockets_opened (effects (node (testGraylogConnection encode now uuid direct m).2)) =
    sockets_opened (effects (node m)).
Proof.
  intros H. unfold testGraylogConnection. rewrite H. simpl. done.
Qed.

(** ** The delivery queue *)

Lemma write_not_connected (l : JsValue) (cb : nat) (t : GraylogTransport) (n : Node) :
  connected t = false ∨ client t = None →
  write encode l cb t n =
    (set_buffer ((if (length (buffer t) <? maxBufferSize t)%nat
                  then buffer t else drop 1 (buffer t))
                 ++ [{| log := l; callback := cb |}]) t, n).
Proof.
  intros H. unfold write.
  assert (negb (connected t) || negb (bool_decide (is_Some (client t))) = true) as ->.
  { destruct H as [-> | ->]; [done|]. rewrite bool_decide_eq_false_2; [apply orb_true_r|].
    by intros [? ?]. }
  by destruct (_ <? _)%nat.
Qed.

Lemma item_eta (i : Item) : {| log := log i; callback := callback i |} = i.
Proof. by destruct i. Qed.

Lemma writes_not_connected (items : list Item) (t : GraylogTransport) (n : Node) :
  connected t = false ∨ client t = None →
  (0 < maxBufferSize t)%nat →
  (length (buffer t) ≤ maxBufferSize t)%nat →
  writes encode items (t, n) =
    (set_buffer (drop (length (buffer t ++ items) - maxBufferSize t) (buffer t ++ items)) t, n).
Proof.
  revert t. induction items as [|i items IH]; intros t Hd Hpos Hlen.
  - simpl. rewrite app_nil_r.
    replace (length (buffer t) - maxBufferSize t)%nat with 0%nat by lia.
    by destruct t.
  - unfold writes in *. simpl. rewrite write_not_connected by done. rewrite item_eta.
    destruct (Nat.ltb_spec (length (buffer t)) (maxBufferSize t)) as [Hlt|Hge].
    + rewrite IH; simpl; try done.
      * by rewrite <- app_assoc.
      * rewrite length_app. simpl. lia.
    + assert (Hfull : length (buffer t) = maxBufferSize t) by lia.
      destruct (buffer t) as [|x b] eqn:Hb; [simpl in *; lia|].
      rewrite IH; simpl; try done.
      * unfold set_buffer. simpl. f_equal.
        assert (Hk : (S (length (b ++ i :: items)) - maxBufferSize t
                      = S (length (b ++ i :: items) - maxBufferSize t))%nat).
        { rewrite length_app. simpl in *. lia. }
        rewrite drop_0, <- app_assoc. simpl. by rewrite Hk.
      * rewrite drop_0, length_app. simpl in *. lia.
Qed.

Lemma processBuffer_buffer (t : GraylogTransport) (n : Node) :
  maxBufferSize (processBuffer encode t n).1 = maxBufferSize t ∧
  (length (buffer (processBuffer encode t n).1) ≤ length (buffer t))%nat.
Proof.
  unfold processBuffer. destruct (_ && _); [|done]. cbv zeta.
  set (k := Nat.min 10 (length (buffer t))).
  destruct (0 <? _)%nat; cbn [fst buffer maxBufferSize set_buffer];
    rewrite length_drop; split; (done || lia).
Qed.

(** The hypotheses of the next theorem hold in every state the transport can
    reach: the capacity is the constant 100 and the queue is within it. *)
Lemma reachable_queue_bounded (w : World) :
  reachable encode w →
  maxBufferSize w.1 = 100%nat ∧ (length (buffer w.1) ≤ 100)%nat.
Proof.
  assert (Hsched : ∀ t n, maxBufferSize (scheduleReconnect t n).1 = maxBufferSize t
                          ∧ buffer (scheduleReconnect t n).1 = buffer t).
  { intros t n. unfold scheduleReconnect. by destruct (reconnectTimeout t). }
  assert (Hsetup : ∀ fault t n,
            maxBufferSize (setupConnection encode fault t n).1 = maxBufferSize t ∧
            (length (buffer (setupConnection encode fault t n).1) ≤ length (buffer t))%nat).
  { intros fault t n. unfold setupConnection. destruct fault.
    - destruct (Hsched (set_connected false t)
                  (console console_error ("Erro ao configurar cliente UDP: " +:+ s) n))
        as [-> ->]. done.
    - apply (processBuffer_buffer (set_connected true (set_client (Some (next_socket n)) t))). }
  induction 1 as [h p fault|i [t n] _ [IHm IHl]].
  - unfold new_GraylogTransport.
    match goal with |- context [setupConnection encode fault ?t0 ?n0] =>
      destruct (Hsetup fault t0 n0) as [-> Hl] end.
    simpl in *. split; [done|lia].
  - simpl in IHm, IHl. destruct i; simpl.
    + unfold write. destruct (_ || _); [|done].
      destruct (Nat.ltb_spec (length (buffer t)) (maxBufferSize t)); simpl;
        (split; [done|]); rewrite length_app, ?length_drop; simpl; lia.
    + done.
    + unfold fireTimer. destruct (decide _); [|done]. destruct (timer_kind tm).
      * match goal with |- context [setupConnection encode fault t ?n0] =>
          destruct (Hsetup fault t n0) as [-> Hl] end. split; [done|lia].
      * match goal with |- context [processBuffer encode t ?n0] =>
          destruct (processBuffer_buffer t n0) as [-> Hl] end. split; [done|lia].
    + unfold sendCompleted. destruct (in_flight n); [done|]. destruct err; [|done].
      match goal with |- context [scheduleReconnect ?t0 ?n0] =>
        destruct (Hsched t0 n0) as [H1 H2] end. rewrite H1, H2. done.
    + done.
Qed.

(** C2: writes issued while the transport is not connected keep the queue
    within [maxBufferSize] after every one of them; a write that finds the
    queue full drops the oldest entry and appends the new one; the queue
    finally holds the newest [maxBufferSize] entries in submission order and
    nothing was sent.  For a transport created with the socket unavailable
    (capacity 100, empty queue) 150 records leave records 51 to 150. *)
Theorem write_queue_bounded_fifo (t : GraylogTransport) (n : Node) (items : list Item) :
  connected t = false ∨ client t = None →
  (0 < maxBufferSize t)%nat →
  (length (buffer t) ≤ maxBufferSize t)%nat →
  (∀ k, (length (buffer (writes encode (take k items) (t, n)).1) ≤ maxBufferSize t)%nat) ∧
  (∀ i, length (buffer t) = maxBufferSize t →
        buffer (write encode (log i) (callback i) t n).1 = drop 1 (buffer t) ++ [i]) ∧
  buffer (writes encode items (t, n)).1 =
    drop (length (buffer t ++ items) - maxBufferSize t) (buffer t ++ items) ∧
  (writes encode items (t, n)).2 = n ∧
  (∀ (h : string) (p : Z) (e : string) (record : nat → JsValue),
     let w0 := new_GraylogTransport encode h p (Some e) fresh_node in
     let submit i := {| log := record i; callback := 0%nat |} in
     connected w0.1 = false ∧ maxBufferSize w0.1 = 100%nat ∧
     buffer (writes encode (submit <$> seq 1 150) w0).1 = submit <$> seq 51 100).
Proof.
  intros Hd Hpos Hlen. split; [|split; [|split; [|split]]].
  - intros k. rewrite writes_not_connected by done. simpl.
    rewrite length_drop, length_app, length_take. lia.
  - intros i Hfull. rewrite write_not_connected by done. simpl.
    rewrite Hfull, Nat.ltb_irrefl. by rewrite item_eta.
  - by rewrite writes_not_connected.
  - by rewrite writes_not_connected.
  - intros h p e record w0 submit.
    destruct w0 as [t0 n0] eqn:Hw0.
    assert (Ht0 : connected t0 = false ∧ maxBufferSize t0 = 100%nat ∧ buffer t0 = []).
    { unfold w0, new_GraylogTransport, setupConnection, scheduleReconnect in Hw0.
      simpl in Hw0. by inversion Hw0. }
    destruct Ht0 as (Hc0 & Hm0 & Hb0).
    split; [done|]. split; [done|].
    rewrite writes_not_connected by (rewrite ?Hm0, ?Hb0; simpl; auto with lia).
    cbn [fst buffer set_buffer]. rewrite Hb0, Hm0, app_nil_l.
    rewrite length_fmap, length_seq, <- fmap_drop.
    f_equal.
Qed.

(** ** Transmission failure *)

(** C1 (as the code has it): for a record written while connected whose
    datagram the socket accepted, a send callback reporting an error prints
    the error, marks the transport disconnected and arms the 30 s reconnect
    timer; the queue is left exactly as it was, so the record is not queued
    again. *)
Theorem send_failure_disconnects (t : GraylogTransport) (n : Node) (l : JsValue) (cb c : nat)
    (payload e : string) :
  connected t = true →
  client t = Some c →
  c ∈ open_sockets n →
  encode l = inl payload →
  in_flight n = [] →
  let w1 := write encode l cb t n in
  let w2 := sendCompleted (Some e) w1.1 w1.2 in
  effects w1.2 = effects n ++ [Datagram c payload (port t) (host t); CallbackRun cb] ∧
  in_flight w1.2 = [(c, payload)] ∧
  connected w2.1 = false ∧
  buffer w2.1 = buffer t ∧
  reconnectTimeout w2.1 = Some (next_timer n) ∧
  {| timer_id := next_timer n; timer_kind := Reconnect; timer_delay := 30000 |} ∈ timers w2.2 ∧
  effects w2.2 = effects w1.2 ++ [Console console_error ("Erro ao enviar log para Graylog: " +:+ e)].
Proof.
  intros Hc Hcl Hopen Henc Hfl w1 w2.
  assert (Hw1 : w1 = (t, run_callback cb
     {| timers := timers n; next_timer := next_timer n;
        open_sockets := open_sockets n; next_socket := next_socket n;
        in_flight := in_flight n ++ [(c, payload)];
        effects := effects n ++ [Datagram c payload (port t) (host t)] |})).
  { subst w1. unfold write, sendLog, socket_send. rewrite Hc, Hcl, Henc. simpl.
    by rewrite decide_True. }
  subst w2. rewrite Hw1. simpl. rewrite Hfl. simpl.
  unfold sendCompleted, scheduleReconnect. simpl.
  destruct (reconnectTimeout t); simpl;
    (repeat split; [by rewrite <- app_assoc | set_solver]).
Qed.

(** ** close *)



Lemma close_timers (t : GraylogTransport) (n : Node) :
  timers (close t n) =
    match reconnectTimeout t with
    | Some h => filter (fun tm => timer_id tm ≠ h) (timers n)
    | None => timers n
    end.
Proof.
  unfold close, socket_close.
  destruct (reconnectTimeout t), (client t); simpl; try done;
    destruct (decide _); done.
Qed.





(** ** Draining the queue *)











(** ** Timers and close *)

Lemma handles_ok_filter (P : Timer → Prop) `{∀ tm, Decision (P tm)} r ts next :
  handles_ok r ts next → handles_ok r (filter P ts) next.
Proof.
  intros (H1 & H2 & H3 & H4). repeat split; try done;
    intros tm [_ Hin]%list_elem_of_filter; eauto.
Qed.

Lemma handles_ok_reconnect r ts next :
  handles_ok r ts next →
  handles_ok (Some next)
    (match r with Some h => filter (fun tm => timer_id tm ≠ h) ts | None => ts end
     ++ [{| timer_id := next; timer_kind := Reconnect; timer_delay := 30000 |}])
    (S next).
Proof.
  intros (H1 & H2 & H3 & H4).
  assert (Hsub : ∀ tm,
    tm ∈ match r with Some h => filter (fun tm => timer_id tm ≠ h) ts | None => ts end →
    tm ∈ ts ∧ timer_kind tm = Drain).
  { intros tm Hin. destruct r as [h|].
    - apply list_elem_of_filter in Hin as [Hne Hin]. split; [done|].
      destruct (timer_kind tm) eqn:Hk; [|done].
      specialize (H3 tm Hin Hk). congruence.
    - split; [done|]. destruct (timer_kind tm) eqn:Hk; [|done].
      by specialize (H3 tm Hin Hk). }
  repeat split.
  - intros tm [Hin| ->%list_elem_of_singleton]%elem_of_app; simpl; [|lia].
    apply Hsub in Hin as [Hin _]. specialize (H1 tm Hin). lia.
  - intros h [= <-]. lia.
  - intros tm [Hin| ->%list_elem_of_singleton]%elem_of_app Hk; simpl; [|done].
    apply Hsub in Hin as [_ Hd]. congruence.
  - intros tm [Hin| ->%list_elem_of_singleton]%elem_of_app Hk; simpl in *; [|done].
    apply Hsub in Hin as [Hin _]. specialize (H1 tm Hin). intros [= Heq]. lia.
Qed.

Lemma handles_ok_drain r ts next :
  handles_ok r ts next →
  handles_ok r (ts ++ [{| timer_id := next; timer_kind := Drain; timer_delay := 100 |}]) (S next).
Proof.
  intros (H1 & H2 & H3 & H4). repeat split.
  - intros tm [Hin| ->%list_elem_of_singleton]%elem_of_app; simpl; [|lia].
    specialize (H1 tm Hin). lia.
  - intros h Hr. specialize (H2 h Hr). lia.
  - intros tm [Hin| ->%list_elem_of_singleton]%elem_of_app Hk; simpl in *; [eauto|done].
  - intros tm [Hin| ->%list_elem_of_singleton]%elem_of_app Hk; simpl in *; [eauto|].
    intros Hr. specialize (H2 _ Hr). lia.
Qed.

Lemma sendLog_frame (l : JsValue) (t : GraylogTransport) (n : Node) :
  same_frame n (sendLog encode l t n).
Proof.
  unfold sendLog, socket_send, same_frame.
  destruct (client t); [|done]. destruct (encode l); [|done].
  by destruct (decide _).
Qed.

Lemma batch_frame (t : GraylogTransport) (batch : list Item) (n : Node) :
  same_frame n (foldl (processItem encode t) n batch).
Proof.
  revert n. induction batch as [|i batch IH]; intros n; [done|].
  simpl foldl. destruct (IH (processItem encode t n i)) as (H1 & H2 & H3 & H4).
  destruct (sendLog_frame (log i) t n) as (G1 & G2 & G3 & G4).
  unfold same_frame. rewrite H1, H2, H3, H4. done.
Qed.

Lemma scheduleReconnect_ok (t : GraylogTransport) (n : Node) :
  timers_ok (t, n) → timers_ok (scheduleReconnect t n).
Proof.
  unfold timers_ok, scheduleReconnect. simpl. intros H.
  apply handles_ok_reconnect in H. by destruct (reconnectTimeout t).
Qed.

Lemma processBuffer_ok (t : GraylogTransport) (n : Node) :
  timers_ok (t, n) → timers_ok (processBuffer encode t n).
Proof.
  unfold timers_ok, processBuffer. intros H.
  destruct (_ && _); [|done]. cbv zeta.
  set (k := Nat.min 10 (length (buffer t))).
  set (t1 := set_buffer (drop k (buffer t)) t).
  destruct (batch_frame t1 (take k (buffer t)) n) as (Ht & Hn & _ & _).
  destruct (0 <? _)%nat; cbn [fst snd setTimeout timers next_timer] in *;
    rewrite Ht, Hn; [by apply handles_ok_drain|done].
Qed.

Lemma setupConnection_ok (fault : option string) (t : GraylogTransport) (n : Node) :
  timers_ok (t, n) → timers_ok (setupConnection encode fault t n).
Proof.
  intros H. unfold setupConnection. destruct fault.
  - by apply scheduleReconnect_ok.
  - simpl. by apply processBuffer_ok.
Qed.

Lemma step_ok (i : Input) (w : World) : timers_ok w → timers_ok (step encode i w).
Proof.
  destruct w as [t n]. intros H. destruct i; simpl.
  - unfold write. destruct (_ || _); [by destruct (_ <? _)%nat|].
    unfold timers_ok. simpl. by destruct (sendLog_frame l t n) as (-> & -> & _ & _).
  - unfold timers_ok in *. simpl in *. rewrite close_timers.
    assert (Hn : next_timer (close t n) = next_timer n).
    { unfold close, socket_close.
      destruct (reconnectTimeout t), (client t); simpl; try done; by destruct (decide _). }
    rewrite Hn. destruct (reconnectTimeout t) eqn:Hr; [|done].
    by apply handles_ok_filter.
  - unfold fireTimer. destruct (decide _); [|done].
    assert (H' : timers_ok (t, clearTimeout (timer_id tm) n)).
    { unfold timers_ok. simpl. by apply handles_ok_filter. }
    destruct (timer_kind tm).
    + by apply setupConnection_ok.
    + by apply processBuffer_ok.
  - unfold sendCompleted. destruct (in_flight n); [done|].
    destruct err; [|done]. by apply scheduleReconnect_ok.
  - unfold socketError. by apply scheduleReconnect_ok.
Qed.

Lemma reachable_run (inputs : list Input) (w : World) :
  reachable encode w → reachable encode (run encode inputs w).
Proof.
  revert w. induction inputs as [|i inputs IH]; intros w Hw; [done|].
  apply IH. by constructor.
Qed.

Lemma reachable_timers_ok (w : World) : reachable encode w → timers_ok w.
Proof.
  induction 1 as [h p fault|i w _ IH].
  - unfold new_GraylogTransport. apply setupConnection_ok.
    unfold timers_ok, handles_ok. simpl. repeat split; try done; by intros ? ?%elem_of_nil.
  - by apply step_ok.
Qed.


(** ** The facade never throws *)


End Properties.

(** * Concrete runs *)

Example world_connected_state :
  connected world_connected.1 = true ∧ client world_connected.1 = Some 0%nat ∧
  timers world_connected.2 = [] ∧ effects world_connected.2 = [SocketOpened 0].
Proof. vm_compute. repeat split; reflexivity. Qed.

Example world_disconnected_state :
  connected world_disconnected.1 = false ∧ client world_disconnected.1 = None ∧
  reconnectTimeout world_disconnected.1 = Some 0%nat ∧
  timers world_disconnected.2 =
    [{| timer_id := 0; timer_kind := Reconnect; timer_delay := 30000 |}].
Proof. vm_compute. repeat split; reflexivity. Qed.

Example closed_mid_drain_sent_ten :
  datagrams (effects world_closed_mid_drain.2) = pretty <$> seq 1 10 ∧
  releases 0 (effects world_closed_mid_drain.2) = 1%nat.
Proof. vm_compute. split; reflexivity. Qed.

Example module_warn_filters_info :
  shouldLog (env module_warn) (LOG_LEVELS_at "info") = false ∧
  shouldLog (env module_warn) (LOG_LEVELS_at "error") = true.
Proof. vm_compute. split; reflexivity. Qed.

(** C1, as stated, fails: a record written while connected whose send
    callback reports an error leaves the transport disconnected with an
    empty queue; the record is gone. *)
Lemma send_failure_drops_record :
  let r := VStr "payment accepted" in
  let w1 := write toy_encode r 7 world_connected.1 world_connected.2 in
  let w2 := sendCompleted (Some "ENETUNREACH") w1.1 w1.2 in
  connected world_connected.1 = true ∧
  datagrams (effects w1.2) = ["payment accepted"] ∧
  connected w2.1 = false ∧
  ¬ (r ∈ log <$> buffer w2.1).
Proof.
  intros r w1 w2.
  assert (Hb : buffer w2.1 = []) by reflexivity.
  rewrite Hb. repeat split; try reflexivity. apply not_elem_of_nil.
Qed.

Lemma send_failure_disconnects_witness :
  let w1 := write toy_encode (VStr "payment accepted") 7 world_connected.1 world_connected.2 in
  let w2 := sendCompleted (Some "ENETUNREACH") w1.1 w1.2 in
  connected w2.1 = false ∧ buffer w2.1 = buffer world_connected.1.
Proof.
  intros w1 w2.
  pose proof (send_failure_disconnects toy_encode world_connected.1 world_connected.2
                (VStr "payment accepted") 7 0 "payment accepted" "ENETUNREACH"
                eq_refl eq_refl) as H.
  assert (Hopen : 0%nat ∈ open_sockets world_connected.2).
  { apply (bool_decide_unpack _). vm_compute. exact I. }
  destruct (H Hopen eq_refl eq_refl) as (_ & _ & Hc & Hb & _).
  split; [exact Hc|exact Hb].
Defined.

Lemma write_queue_bounded_fifo_witness :
  let t := world_disconnected.1 in
  let n := world_disconnected.2 in
  let items := numbered <$> seq 1 3 in
  buffer (writes toy_encode items (t, n)).1 =
    drop (length (buffer t ++ items) - maxBufferSize t) (buffer t ++ items).
Proof.
  intros t n items.
  assert (Hpos : (0 < maxBufferSize t)%nat) by (vm_compute; lia).
  assert (Hlen : (length (buffer t) ≤ maxBufferSize t)%nat) by (vm_compute; lia).
  exact (proj1 (proj2 (proj2
    (write_queue_bounded_fifo toy_encode t n items (or_introl eq_refl) Hpos Hlen)))).
Defined.






(** C7, as stated, fails: the detail string of the disabled case is not
    "disabled". *)
Lemma testGraylogConnection_disabled_message :
  let r := (testGraylogConnection toy_encode 1700000000000 "c0ffee" (DirectSendDone false)
              module_disabled).1 in
  enabled (graylogConfig module_disabled) = false ∧
  ¬ (success r = false ∧ message r = "disabled").
Proof.
  split; [reflexivity|]. intros [_ H]. vm_compute in H. discriminate H.
Qed.

Lemma testGraylogConnection_disabled_witness :
  testGraylogConnection toy_encode 1700000000000 "c0ffee" (DirectSendDone false) module_disabled =
    ({| success := false; message := "Graylog não está ativado nas configurações." |},
     module_disabled).
Proof.
  exact (proj1 (testGraylogConnection_disabled toy_encode 1700000000000 "c0ffee"
                  (DirectSendDone false) module_disabled eq_refl)).
Defined.

Lemma shouldLog_severity_filter_witness :
  safeLogger_debug toy_encode 1700000000000 "c0ffee" None (VStr "cache miss") [] module_warn
    = Ok module_warn ∧
  shouldLog (env module_warn) 3 = true.
Proof.
  destruct (shouldLog_severity_filter toy_encode module_warn 4 eq_refl) as (_ & _ & H).
  destruct (H eq_refl) as (_ & _ & _ & H3 & _ & Hsup & _).
  split; [|exact H3].
  exact (proj1 (Hsup ∅ 1700000000000 "c0ffee" None (VStr "cache miss") [])).
Defined.

Lemma formatLog_error_is_level_3_witness :
  ∃ r, emit_log toy_encode Lwarn None 1700000000000 "c0ffee" None
         (VError "TypeError" "x is not a function" (Some "at main.js:1")) [] module_debug =
         Ok (sendToGraylog toy_encode r
               (with_node (emit (PinoCall "warn" r []) (node module_debug)) module_debug)) ∧
       r !! "level" = Some (VNum (inject_Z 3)).
Proof.
  destruct (formatLog_error_is_level_3 toy_encode (defaultLogValues module_debug)
              1700000000000 "c0ffee" "TypeError" "x is not a function" (Some "at main.js:1") 4)
    as (r & _ & Hl & _ & _ & _ & _ & Hemit).
  exists r. split; [|exact Hl].
  exact (Hemit Lwarn [] module_debug eq_refl eq_refl).
Defined.

Lemma shouldLog_unknown_level_witness :
  (∀ level, shouldLog (sample_env "true" "trace") level = false) ∧
  (∀ level, shouldLog (sample_env "true" "") level = (level <=? 6)).
Proof.
  split.
  - apply (proj1 (shouldLog_unknown_level (sample_env "true" "trace"))).
    + discriminate.
    + apply (bool_decide_unpack _). vm_compute. exact I.
  - exact (proj2 (shouldLog_unknown_level (sample_env "true" "")) eq_refl).
Defined.

(** * Further properties *)

Section FurtherProperties.

Variable encode : JsValue → string + string.

(** ** formatLog on every kind of message *)

Lemma formatLog_structured (defaults : gmap string JsValue) now uuid (msg : JsValue) level :
  is_structured msg = true →
  formatLog defaults now uuid msg level =
    let o := own_props msg in
    let shortMessage :=
      js_or (js_or (js_or (get o "msg") (get o "message")) (get o "short_message"))
            (VStr "No Content") in
    let fullMessage :=
      js_or (js_or (get o "fullMessage") (get o "full_message")) (get o "details") in
    let rest := delete "full_message" (delete "short_message" (delete "message" (delete "msg" o))) in
    let standardLog :=
      rest ∪
      (<["_correlation_id" := js_or (get o "_correlation_id") (VStr uuid)]>
      (<["level" := VNum (inject_Z level)]>
      (<["timestamp" := VNum (Qmake now 1000)]>
      (<["short_message" := shortMessage]> defaults)))) in
    Ok (if truthy fullMessage then <["full_message" := fullMessage]> standardLog
        else standardLog).
Proof. by destruct msg. Qed.

(** X1: whatever the message, a record that [formatLog] returns has every
    key of the default envelope together with short_message, timestamp,
    level and _correlation_id. *)
Theorem formatLog_keeps_envelope_keys (c : GraylogConfig) (hostname : string) now uuid
    (msg : JsValue) level (r : gmap string JsValue) :
  formatLog (defaultLogValues_of c hostname) now uuid msg level = Ok r →
  Forall (fun k => is_Some (r !! k))
    ["version"; "host"; "short_message"; "timestamp"; "level"; "_correlation_id";
     "_application_name"; "_environment"; "_product"; "_service_name"; "_service_version"].
Proof.
  intros H.
  destruct (is_structured msg) eqn:Hs.
  - rewrite formatLog_structured in H by done. cbv zeta in H.
    injection H as <-.
    repeat apply Forall_cons_2; try apply Forall_nil_2;
      (destruct (truthy _);
       [rewrite lookup_insert_ne by done|]; apply lookup_union_is_Some; right;
       unfold defaultLogValues_of; by simplify_map_eq).
  - destruct msg; try done; injection H as <-;
      repeat apply Forall_cons_2; try apply Forall_nil_2;
      unfold defaultLogValues_of; by simplify_map_eq.
Qed.


(** X3: for a message that is an object (or any value other than a string,
    an Error, null or undefined), every own field except msg, message,
    short_message and full_message is copied into the record and wins over
    the envelope, so a caller's level, host or timestamp replaces the
    computed one; msg and message themselves never appear in the record. *)
Theorem formatLog_fields_pass_through (c : GraylogConfig) (hostname : string) now uuid
    (msg : JsValue) level (r : gmap string JsValue) :
  is_structured msg = true →
  formatLog (defaultLogValues_of c hostname) now uuid msg level = Ok r →
  (∀ k v, k ∉ ["msg"; "message"; "short_message"; "full_message"] →
          own_props msg !! k = Some v → r !! k = Some v) ∧
  r !! "msg" = None ∧ r !! "message" = None.
Proof.
  intros Hs H. rewrite formatLog_structured in H by done. cbv zeta in H.
  injection H as <-.
  assert (Hbase : ∀ (b : gmap string JsValue) k,
            (if truthy (js_or (js_or (get (own_props msg) "fullMessage")
                                     (get (own_props msg) "full_message"))
                              (get (own_props msg) "details"))
             then <["full_message" :=
                      js_or (js_or (get (own_props msg) "fullMessage")
                                   (get (own_props msg) "full_message"))
                            (get (own_props msg) "details")]> b
             else b) !! k = if decide (k = "full_message")
                            then (if truthy (js_or (js_or (get (own_props msg) "fullMessage")
                                     (get (own_props msg) "full_message"))
                              (get (own_props msg) "details"))
                                  then Some (js_or (js_or (get (own_props msg) "fullMessage")
                                     (get (own_props msg) "full_message"))
                              (get (own_props msg) "details"))
                                  else b !! k)
                            else b !! k).
  { intros b k. destruct (truthy _).
    - rewrite lookup_insert. destruct (decide ("full_message" = k)), (decide (k = "full_message"));
        congruence.
    - by destruct (decide _). }
  split; [|split].
  - intros k v Hk Ho. rewrite Hbase.
    rewrite decide_False by (intros ->; apply Hk; set_solver-).
    apply lookup_union_Some_l.
    rewrite !lookup_delete_ne by (intros <-; apply Hk; set_solver-). done.
  - rewrite Hbase. rewrite decide_False by done.
    apply lookup_union_None. split.
    + rewrite !lookup_delete_ne by done. apply lookup_delete_eq.
    + unfold defaultLogValues_of. by simplify_map_eq.
  - rewrite Hbase. rewrite decide_False by done.
    apply lookup_union_None. split.
    + rewrite !lookup_delete_ne by done. apply lookup_delete_eq.
    + unfold defaultLogValues_of. by simplify_map_eq.
Qed.

(** X4: for such a message short_message is the first truthy one of msg,
    message and short_message, and "No Content" when none is (an empty
    object, or fields that are empty strings, 0, false or null). *)
Theorem formatLog_short_message_chain (defaults : gmap string JsValue) now uuid
    (msg : JsValue) level (r : gmap string JsValue) :
  is_structured msg = true →
  formatLog defaults now uuid msg level = Ok r →
  let o := own_props msg in
  r !! "short_message" =
    Some (if truthy (get o "msg") then get o "msg"
          else if truthy (get o "message") then get o "message"
          else if truthy (get o "short_message") then get o "short_message"
          else VStr "No Content").
Proof.
  intros Hs H o. rewrite formatLog_structured in H by done. cbv zeta in H.
  injection H as <-. fold o.
  assert (Hr : (delete "full_message" (delete "short_message"
                  (delete "message" (delete "msg" o)))) !! "short_message" = None).
  { rewrite lookup_delete_ne by done. apply lookup_delete_eq. }
  assert (Hu : ∀ b : gmap string JsValue,
            (delete "full_message" (delete "short_message"
               (delete "message" (delete "msg" o))) ∪ b) !! "short_message"
            = b !! "short_message").
  { intros b. by rewrite lookup_union_r. }
  set (fm := js_or (js_or (get o "fullMessage") (get o "full_message")) (get o "details")).
  assert (Hfm : ∀ b : gmap string JsValue,
            (if truthy fm then <["full_message" := fm]> b else b) !! "short_message"
            = b !! "short_message").
  { intros b. destruct (truthy fm); [by rewrite lookup_insert_ne|done]. }
  rewrite Hfm, Hu, !lookup_insert_ne by done. rewrite lookup_insert_eq.
  f_equal. unfold js_or.
  destruct (truthy (get o "msg")) eqn:H1; rewrite ?H1; [done|].
  destruct (truthy (get o "message")) eqn:H2; rewrite ?H2; [done|].
  by destruct (truthy (get o "short_message")) eqn:H3.
Qed.

(** X5: full_message is the first truthy one of fullMessage, full_message
    and details; when none is truthy the record has no full_message at all,
    even if the message carried an empty one. *)
Theorem formatLog_full_message_chain (c : GraylogConfig) (hostname : string) now uuid
    (msg : JsValue) level (r : gmap string JsValue) :
  is_structured msg = true →
  formatLog (defaultLogValues_of c hostname) now uuid msg level = Ok r →
  let o := own_props msg in
  let fullMessage :=
    if truthy (get o "fullMessage") then get o "fullMessage"
    else if truthy (get o "full_message") then get o "full_message"
    else get o "details" in
  r !! "full_message" = if truthy fullMessage then Some fullMessage else None.
Proof.
  intros Hs H o fullMessage. rewrite formatLog_structured in H by done. cbv zeta in H.
  injection H as <-. fold o.
  assert (Hfm : js_or (js_or (get o "fullMessage") (get o "full_message")) (get o "details")
                = fullMessage).
  { unfold js_or, fullMessage.
    destruct (truthy (get o "fullMessage")) eqn:H1; rewrite ?H1; [done|].
    by destruct (truthy (get o "full_message")) eqn:H2; rewrite ?H2. }
  rewrite Hfm. destruct (truthy fullMessage).
  - apply lookup_insert_eq.
  - apply lookup_union_None. split; [apply lookup_delete_eq|].
    unfold defaultLogValues_of. by simplify_map_eq.
Qed.

(** X6: the record's _correlation_id is the generated uuid, unless the
    message is an object that has a _correlation_id field of its own: then
    that value is kept, whether or not it is truthy. *)
Theorem formatLog_correlation_id (defaults : gmap string JsValue) now uuid
    (msg : JsValue) level (r : gmap string JsValue) :
  formatLog defaults now uuid msg level = Ok r →
  r !! "_correlation_id" =
    Some (match (if is_structured msg then own_props msg !! "_correlation_id" else None) with
          | Some v => v
          | None => VStr uuid
          end).
Proof.
  intros H. destruct (is_structured msg) eqn:Hs.
  - rewrite formatLog_structured in H by done. cbv zeta in H. injection H as <-.
    set (o := own_props msg).
    assert (Hr : (delete "full_message" (delete "short_message"
                    (delete "message" (delete "msg" o)))) !! "_correlation_id"
                 = o !! "_correlation_id").
    { by rewrite !lookup_delete_ne. }
    destruct (truthy (js_or _ _)); [rewrite lookup_insert_ne by done|];
      rewrite lookup_union, Hr, lookup_insert_eq;
      unfold js_or, get; destruct (o !! "_correlation_id") as [v|]; simpl; try done;
      by destruct (truthy v).
  - destruct msg; try done; injection H as <-; by simplify_map_eq.
Qed.

(** ** Context binding *)

(** X7: a record emitted through [createContext(ctx)] is the formatted
    record with every field of [ctx] laid over it, so a bound field wins over
    the computed one (level and short_message included) and the other fields
    are those of [formatLog]; with an empty context the bound emitter is the
    plain one. *)
Theorem context_fields_override (l : Level) (ctx : gmap string JsValue) now uuid
    (msg : JsValue) args (m : LoggerModule) (baseLog : gmap string JsValue) :
  shouldLog (env m) (LOG_LEVELS_at (level_key l)) = true →
  formatLog (defaultLogValues m) now uuid msg (LOG_LEVELS_at (level_key l)) = Ok baseLog →
  (∃ r, emit_log encode l (Some ctx) now uuid None msg args m =
          Ok (sendToGraylog encode r
                (with_node (emit (PinoCall (level_key l) r args) (node m)) m)) ∧
        (∀ k v, ctx !! k = Some v → r !! k = Some v) ∧
        (∀ k, ctx !! k = None → r !! k = baseLog !! k)) ∧
  (∀ fault, emit_log encode l (Some ∅) now uuid fault msg args m =
            emit_log encode l None now uuid fault msg args m).
Proof.
  intros Hs Hf. split.
  - exists (ctx ∪ baseLog). split; [|split].
    + by rewrite (emit_log_passes encode l (Some ctx) now uuid msg args m baseLog).
    + intros k v Hk. by apply lookup_union_Some_l.
    + intros k Hk. by apply lookup_union_r.
  - intros fault. unfold emit_log, emit_try. rewrite Hs, Hf. simpl.
    by rewrite (left_id_L ∅ (∪)).
Qed.

(** ** Loading the module, and running without a transport *)


(** X9: when the module has no transport, or Graylog is disabled, an
    emitter never touches the network side: the transport, the timers, the
    sockets and the datagrams are as before, whatever the message. *)
Theorem emit_without_transport (l : Level) ctx now uuid fault (msg : JsValue) args
    (m m' : LoggerModule) :
  graylogTransport m = None ∨ enabled (graylogConfig m) = false →
  emit_log encode l ctx now uuid fault msg args m = Ok m' →
  graylogTransport m' = graylogTransport m ∧
  timers (node m') = timers (node m) ∧
  open_sockets (node m') = open_sockets (node m) ∧
  in_flight (node m') = in_flight (node m) ∧
  datagrams (effects (node m')) = datagrams (effects (node m)) ∧
  sockets_opened (effects (node m')) = sockets_opened (effects (node m)).
Proof.
  intros Hno H. unfold emit_log, emit_try, try_catch, console_fallback in H.
  destruct (shouldLog _ _); simpl in H; [|by injection H as <-].
  destruct (formatLog _ _ _ _ _) as [baseLog|e]; simpl in H.
  2:{ injection H as <-. simpl. unfold datagrams, sockets_opened.
      rewrite !omap_app. simpl. by rewrite !app_nil_r. }
  destruct fault; simpl in H.
  { injection H as <-. simpl. unfold datagrams, sockets_opened.
    rewrite !omap_app. simpl. by rewrite !app_nil_r. }
  injection H as <-. unfold sendToGraylog. simpl.
  assert (Hfin : ∀ e, is_Some (match e with Datagram _ _ _ _ | SocketOpened _ => None
                                | _ => Some tt end) →
    datagrams (effects (node m) ++ [e]) = datagrams (effects (node m)) ∧
    sockets_opened (effects (node m) ++ [e]) = sockets_opened (effects (node m))).
  { intros e He. unfold datagrams, sockets_opened. rewrite !omap_app.
    destruct e; simpl in *; rewrite ?app_nil_r; try done; by destruct He. }
  destruct Hno as [Hn|Hn]; rewrite Hn; [|destruct (graylogTransport m) eqn:Ht];
    simpl; rewrite ?Ht; repeat split; try done; by apply Hfin.
Qed.

(** ** Writing while connected *)






(** ** Reconnection *)

Lemma fresh_append (ts : list Timer) (next : nat) (k : TimerKind) (d : Z) :
  NoDup (timer_id <$> ts) → (∀ tm, tm ∈ ts → (timer_id tm < next)%nat) →
  NoDup (timer_id <$> (ts ++ [{| timer_id := next; timer_kind := k; timer_delay := d |}])).
Proof.
  intros Hnd Hlt. rewrite fmap_app. apply NoDup_app. split; [done|]. split.
  - intros x [tm [-> Hin]]%list_elem_of_fmap Hx. simpl in Hx.
    apply list_elem_of_singleton in Hx. specialize (Hlt tm Hin). lia.
  - simpl. apply NoDup_singleton.
Qed.

Lemma nodup_ids_filter (P : Timer → Prop) `{∀ tm, Decision (P tm)} (ts : list Timer) :
  NoDup (timer_id <$> ts) → NoDup (timer_id <$> filter P ts).
Proof.
  intros Hnd. eapply sublist_NoDup; [exact Hnd|].
  apply fmap_sublist. apply sublist_filter.
Qed.

Lemma step_ids_nodup (i : Input) (w : World) :
  timers_ok w → NoDup (timer_id <$> timers w.2) →
  NoDup (timer_id <$> timers (step encode i w).2).
Proof.
  destruct w as [t n]. intros Hok Hnd.
  assert (Hsched : ∀ t0 n0, handles_ok (reconnectTimeout t0) (timers n0) (next_timer n0) →
            NoDup (timer_id <$> timers n0) →
            NoDup (timer_id <$> timers (scheduleReconnect t0 n0).2)).
  { intros t0 n0 (H1 & _) Hn. unfold scheduleReconnect.
    destruct (reconnectTimeout t0); simpl.
    - apply fresh_append; [by apply nodup_ids_filter|].
      intros tm [_ Hin]%list_elem_of_filter. by apply H1.
    - by apply fresh_append. }
  assert (Hproc : ∀ t0 n0, handles_ok (reconnectTimeout t0) (timers n0) (next_timer n0) →
            NoDup (timer_id <$> timers n0) →
            NoDup (timer_id <$> timers (processBuffer encode t0 n0).2)).
  { intros t0 n0 (H1 & _) Hn. unfold processBuffer.
    destruct (_ && _); [|done]. cbv zeta.
    set (k := Nat.min 10 (length (buffer t0))).
    set (t1 := set_buffer (drop k (buffer t0)) t0).
    destruct (batch_frame encode t1 (take k (buffer t0)) n0) as (Ht & Hnx & _ & _).
    destruct (0 <? _)%nat; cbn [fst snd setTimeout timers next_timer];
      rewrite Ht, ?Hnx; [|done].
    by apply fresh_append. }
  assert (Hsetup : ∀ fault t0 n0,
            handles_ok (reconnectTimeout t0) (timers n0) (next_timer n0) →
            NoDup (timer_id <$> timers n0) →
            NoDup (timer_id <$> timers (setupConnection encode fault t0 n0).2)).
  { intros fault t0 n0 H0 Hn. unfold setupConnection. destruct fault.
    - by apply Hsched.
    - by apply Hproc. }
  unfold timers_ok in Hok. simpl in Hok, Hnd.
  destruct i; simpl.
  - unfold write. destruct (_ || _); [by destruct (_ <? _)%nat|].
    simpl. by destruct (sendLog_frame encode l t n) as (-> & _).
  - rewrite close_timers. destruct (reconnectTimeout t); [by apply nodup_ids_filter|done].
  - unfold fireTimer. destruct (decide _); [|done].
    assert (H' : handles_ok (reconnectTimeout t) (timers (clearTimeout (timer_id tm) n))
                   (next_timer (clearTimeout (timer_id tm) n))).
    { simpl. by apply handles_ok_filter. }
    assert (Hn' : NoDup (timer_id <$> timers (clearTimeout (timer_id tm) n))).
    { simpl. by apply nodup_ids_filter. }
    destruct (timer_kind tm); [by apply Hsetup|by apply Hproc].
  - unfold sendCompleted. destruct (in_flight n); [done|]. destruct err; [|done].
    by apply Hsched.
  - unfold socketError. by apply Hsched.
Qed.

Lemma reachable_ids_nodup (w : World) :
  reachable encode w → NoDup (timer_id <$> timers w.2).
Proof.
  induction 1 as [h p fault|i w Hw IH].
  - unfold new_GraylogTransport, setupConnection. destruct fault; simpl.
    + apply NoDup_singleton.
    + unfold processBuffer. simpl. apply NoDup_nil_2.
  - apply step_ids_nodup; [by apply (reachable_timers_ok encode)|done].
Qed.

(** X13: in every state the transport can reach at most one reconnect
    timer is armed, and it is the one recorded in [reconnectTimeout];
    scheduling a reconnect replaces the pending timer instead of adding
    one. *)
Theorem at_most_one_reconnect_timer (w : World) :
  reachable encode w →
  (length (reconnect_timers (timers w.2)) ≤ 1)%nat ∧
  (∀ tm, tm ∈ reconnect_timers (timers w.2) → reconnectTimeout w.1 = Some (timer_id tm)).
Proof.
  intros Hreach.
  destruct (reachable_timers_ok encode w Hreach) as (_ & _ & H3 & _).
  pose proof (reachable_ids_nodup w Hreach) as Hnd.
  assert (Hrec : ∀ tm, tm ∈ reconnect_timers (timers w.2) →
                       reconnectTimeout w.1 = Some (timer_id tm)).
  { intros tm [Hk Hin]%list_elem_of_filter. by apply H3. }
  split; [|done].
  assert (Hnd' : NoDup (timer_id <$> reconnect_timers (timers w.2))).
  { by apply nodup_ids_filter. }
  destruct (reconnect_timers (timers w.2)) as [|a [|b l]]; simpl; try lia.
  exfalso.
  assert (Ha := Hrec a ltac:(set_solver-)).
  assert (Hb := Hrec b ltac:(set_solver-)).
  rewrite Ha in Hb. injection Hb as Hab.
  simpl in Hnd'. apply NoDup_cons in Hnd' as [Hnotin _].
  apply Hnotin. rewrite Hab. set_solver-.
Qed.

(** X14: once disconnected with its reconnect timer armed the transport
    stays so through any failed attempt: the timer that fired is replaced by
    a new 30 s one, the queue and the sockets are untouched and nothing is
    sent; a socket ['error'] event puts the transport in that state. *)
Theorem failed_reconnect_keeps_waiting (e : string) (w : World) :
  awaiting_reconnect w →
  let w' := failedReconnect encode e w in
  awaiting_reconnect w' ∧
  buffer w'.1 = buffer w.1 ∧
  client w'.1 = client w.1 ∧
  open_sockets w'.2 = open_sockets w.2 ∧
  datagrams (effects w'.2) = datagrams (effects w.2) ∧
  (∀ e' t n, awaiting_reconnect (socketError e' t n) ∧
             buffer (socketError e' t n).1 = buffer t).
Proof.
  intros (Hc & h & Hr & Hin) w'. destruct w as [t n]. simpl in *.
  subst w'. unfold failedReconnect. simpl. rewrite Hr.
  unfold fireTimer. rewrite decide_True by done. simpl.
  unfold scheduleReconnect. simpl. rewrite Hr. simpl.
  split; [|split; [done|split; [done|split; [done|split]]]].
  - split; [done|]. eexists. split; [reflexivity|].
    apply elem_of_app. right. by apply list_elem_of_singleton.
  - unfold datagrams. rewrite !omap_app. simpl. by rewrite !app_nil_r.
  - intros e' t0 n0. unfold socketError, scheduleReconnect.
    destruct (reconnectTimeout t0); simpl; (split; [|done]);
      (split; [done|]); eexists; (split; [reflexivity|]);
      apply elem_of_app; right; by apply list_elem_of_singleton.
Qed.

(** ** Sockets *)

Lemma sockets_opened_app (es es' : list Effect) :
  sockets_opened (es ++ es') = (sockets_opened es + sockets_opened es')%nat.
Proof. unfold sockets_opened. by rewrite omap_app, length_app. Qed.

Lemma processItem_sockets_opened (t : GraylogTransport) (n : Node) (i : Item) :
  sockets_opened (effects (processItem encode t n i)) = sockets_opened (effects n).
Proof.
  unfold processItem, sendLog, socket_send, run_callback, console, emit, sockets_opened.
  destruct (client t); simpl; [|by rewrite omap_app; simpl; rewrite app_nil_r].
  destruct (encode (log i)); [destruct (decide _)|]; simpl;
    rewrite !omap_app; simpl; by rewrite !app_nil_r.
Qed.

Lemma batch_sockets_opened (t : GraylogTransport) (batch : list Item) (n : Node) :
  sockets_opened (effects (foldl (processItem encode t) n batch)) = sockets_opened (effects n).
Proof.
  revert n. induction batch as [|i batch IH]; intros n; [done|].
  simpl foldl. rewrite IH. apply processItem_sockets_opened.
Qed.

Lemma processBuffer_keeps (t : GraylogTransport) (n : Node) :
  client (processBuffer encode t n).1 = client t ∧
  connected (processBuffer encode t n).1 = connected t ∧
  open_sockets (processBuffer encode t n).2 = open_sockets n ∧
  next_socket (processBuffer encode t n).2 = next_socket n ∧
  sockets_opened (effects (processBuffer encode t n).2) = sockets_opened (effects n).
Proof.
  unfold processBuffer. destruct (_ && _); [|done]. cbv zeta.
  set (k := Nat.min 10 (length (buffer t))).
  set (t1 := set_buffer (drop k (buffer t)) t).
  destruct (batch_frame encode t1 (take k (buffer t)) n) as (_ & _ & Ho & Hs).
  pose proof (batch_sockets_opened t1 (take k (buffer t)) n) as Hso.
  destruct (0 <? _)%nat; cbn [fst snd setTimeout open_sockets next_socket effects];
    rewrite Ho, Hs, Hso; done.
Qed.

Lemma scheduleReconnect_keeps (t : GraylogTransport) (n : Node) :
  client (scheduleReconnect t n).1 = client t ∧
  open_sockets (scheduleReconnect t n).2 = open_sockets n ∧
  next_socket (scheduleReconnect t n).2 = next_socket n.
Proof. unfold scheduleReconnect. by destruct (reconnectTimeout t). Qed.

Lemma close_keeps (t : GraylogTransport) (n : Node) :
  next_socket (close t n) = next_socket n ∧
  next_timer (close t n) = next_timer n ∧
  in_flight (close t n) = in_flight n ∧
  sockets_opened (effects (close t n)) = sockets_opened (effects n).
Proof.
  unfold close, socket_close.
  destruct (reconnectTimeout t), (client t); simpl; try done;
    destruct (decide _); simpl; rewrite ?sockets_opened_app; simpl;
    repeat split; try done; lia.
Qed.

Lemma setupConnection_keeps_open (fault : option string) (t : GraylogTransport) (n : Node) (c : nat) :
  c ∈ open_sockets n → c ∈ open_sockets (setupConnection encode fault t n).2.
Proof.
  intros Hc. unfold setupConnection, createSocket. cbv beta iota zeta. destruct fault.
  - by destruct (scheduleReconnect_keeps (set_connected false t)
                   (console console_error ("Erro ao configurar cliente UDP: " +:+ s) n))
      as (_ & -> & _).
  - match goal with |- context [processBuffer encode ?t0 ?n0] =>
      destruct (processBuffer_keeps t0 n0) as (_ & _ & -> & _) end.
    simpl. apply elem_of_union. by right.
Qed.

Lemma step_client_known (i : Input) (w : World) :
  (∀ c, client w.1 = Some c → (c < next_socket w.2)%nat) →
  ∀ c, client (step encode i w).1 = Some c → (c < next_socket (step encode i w).2)%nat.
Proof.
  destruct w as [t n]. simpl. intros H.
  assert (Hsetup : ∀ fault n0, next_socket n0 = next_socket n →
            ∀ c, client (setupConnection encode fault t n0).1 = Some c →
                 (c < next_socket (setupConnection encode fault t n0).2)%nat).
  { intros fault n0 Hn0 c. unfold setupConnection, createSocket. cbv beta iota zeta.
    destruct fault.
    - match goal with |- context [scheduleReconnect ?t0 ?n1] =>
        destruct (scheduleReconnect_keeps t0 n1) as (-> & _ & ->) end.
      simpl. rewrite Hn0. apply H.
    - match goal with |- context [processBuffer encode ?t0 ?n1] =>
        destruct (processBuffer_keeps t0 n1) as (-> & _ & _ & -> & _) end.
      simpl. intros [= <-]. lia. }
  destruct i; cbn [step fst snd].
  - unfold write. destruct (_ || _); [by destruct (_ <? _)%nat|].
    simpl. destruct (sendLog_frame encode l t n) as (_ & _ & _ & ->). done.
  - destruct (close_keeps t n) as (-> & _). done.
  - unfold fireTimer. destruct (decide _); [|done]. destruct (timer_kind tm).
    + by apply Hsetup.
    + match goal with |- context [processBuffer encode ?t0 ?n1] =>
        destruct (processBuffer_keeps t0 n1) as (-> & _ & _ & -> & _) end. done.
  - unfold sendCompleted. destruct (in_flight n); [done|]. destruct err; [|done].
    match goal with |- context [scheduleReconnect ?t0 ?n1] =>
      destruct (scheduleReconnect_keeps t0 n1) as (-> & _ & ->) end. done.
  - unfold socketError.
    match goal with |- context [scheduleReconnect ?t0 ?n1] =>
      destruct (scheduleReconnect_keeps t0 n1) as (-> & _ & ->) end. done.
Qed.

Lemma reachable_client_known (w : World) :
  reachable encode w → ∀ c, client w.1 = Some c → (c < next_socket w.2)%nat.
Proof.
  induction 1 as [h p fault|i w _ IH].
  - unfold new_GraylogTransport, setupConnection. destruct fault; simpl; [done|].
    unfold processBuffer. simpl. intros c [= <-]. lia.
  - by apply step_client_known.
Qed.

(** X15: a successful reconnection opens a new socket and never closes the
    one in use before: the old socket stays open, and it is still open after
    [close], which only closes the current one. *)
Theorem reconnect_leaves_old_socket_open (w : World) (c : nat) :
  reachable encode w →
  client w.1 = Some c → c ∈ open_sockets w.2 →
  let w' := setupConnection encode None w.1 w.2 in
  client w'.1 = Some (next_socket w.2) ∧
  next_socket w.2 ≠ c ∧
  c ∈ open_sockets w'.2 ∧
  c ∈ open_sockets (close w'.1 w'.2).
Proof.
  intros Hreach Hc Hopen w'.
  pose proof (reachable_client_known w Hreach c Hc) as Hlt.
  assert (Hcl : client w'.1 = Some (next_socket w.2)).
  { subst w'. unfold setupConnection, createSocket. cbv beta iota zeta.
    match goal with |- context [processBuffer encode ?t0 ?n1] =>
      by destruct (processBuffer_keeps t0 n1) as (-> & _) end. }
  assert (Ho : c ∈ open_sockets w'.2) by by apply setupConnection_keeps_open.
  split; [done|]. split; [lia|]. split; [done|].
  unfold close, socket_close. rewrite Hcl.
  destruct (reconnectTimeout w'.1); simpl;
    (destruct (decide _); simpl; [|done]);
    apply elem_of_difference; (split; [done|]);
    intros ->%elem_of_singleton; lia.
Qed.

(** X16: nothing but [close] ever closes a socket: whatever else happens
    to the transport (a write, a timer, a send completing, a socket error),
    every socket that was open is still open. *)
Theorem only_close_closes_sockets (i : Input) (w : World) :
  i ≠ InClose → open_sockets w.2 ⊆ open_sockets (step encode i w).2.
Proof.
  destruct w as [t n]. intros Hi c Hc. destruct i; cbn [step fst snd]; try done.
  - unfold write. destruct (_ || _); [by destruct (_ <? _)%nat|].
    simpl. by destruct (sendLog_frame encode l t n) as (_ & _ & -> & _).
  - unfold fireTimer. destruct (decide _); [|done]. destruct (timer_kind tm).
    + by apply setupConnection_keeps_open.
    + match goal with |- context [processBuffer encode ?t0 ?n1] =>
        by destruct (processBuffer_keeps t0 n1) as (_ & _ & -> & _) end.
  - unfold sendCompleted. destruct (in_flight n); [done|]. destruct err; [|done].
    match goal with |- context [scheduleReconnect ?t0 ?n1] =>
      by destruct (scheduleReconnect_keeps t0 n1) as (_ & -> & _) end.
  - unfold socketError.
    match goal with |- context [scheduleReconnect ?t0 ?n1] =>
      by destruct (scheduleReconnect_keeps t0 n1) as (_ & -> & _) end.
Qed.

(** X17: [close] is not final.  If a send was still in flight when
    [close] was called and its callback then reports an error, a new
    reconnect timer is armed, and when that timer fires a fresh socket is
    opened and the transport is connected again. *)
Theorem close_is_not_terminal (t : GraylogTransport) (n : Node) (e : string)
    (s : nat * string) (rest : list (nat * string)) :
  in_flight n = s :: rest →
  let n1 := close t n in
  let w2 := sendCompleted (Some e) t n1 in
  let tm := {| timer_id := next_timer n; timer_kind := Reconnect; timer_delay := 30000 |} in
  let w3 := fireTimer encode tm None w2.1 w2.2 in
  tm ∈ timers w2.2 ∧
  connected w2.1 = false ∧
  connected w3.1 = true ∧
  client w3.1 = Some (next_socket n) ∧
  next_socket n ∈ open_sockets w3.2 ∧
  sockets_opened (effects w3.2) = S (sockets_opened (effects n)).
Proof.
  intros Hfl n1 w2 tm w3.
  destruct (close_keeps t n) as (Hns & Hnt & Hif & Hso). fold n1 in Hns, Hnt, Hif, Hso.
  clearbody n1.
  assert (Htm : tm ∈ timers w2.2 ∧ connected w2.1 = false ∧
                next_socket w2.2 = next_socket n ∧
                sockets_opened (effects w2.2) = sockets_opened (effects n)).
  { subst w2 tm. unfold sendCompleted. rewrite Hif, Hfl.
    unfold scheduleReconnect. simpl. destruct (reconnectTimeout t); simpl;
      rewrite Hnt, ?Hns, sockets_opened_app, Hso; simpl;
      (split; [apply elem_of_app; right; by apply list_elem_of_singleton|]);
      repeat split; try done; lia. }
  destruct Htm as (Hin & Hc2 & Hns2 & Hso2).
  split; [done|]. split; [done|].
  subst w3. unfold fireTimer. rewrite decide_True by done.
  cbn [timer_kind tm]. unfold setupConnection, createSocket. cbv beta iota zeta.
  match goal with |- context [processBuffer encode ?t0 ?n0] =>
    destruct (processBuffer_keeps t0 n0) as (-> & -> & -> & _ & ->) end.
  simpl. rewrite Hns2. split; [done|]. split; [done|].
  split; [apply elem_of_union; left; by apply elem_of_singleton|].
  rewrite !sockets_opened_app. simpl. rewrite Hso2.
  change (sockets_opened [Console console_log "Tentando reconectar ao Graylog..."]) with 0%nat.
  change (sockets_opened [SocketOpened (next_socket n)]) with 1%nat. lia.
Qed.

(** ** testGraylogConnection with a transport *)

(** X18: when Graylog is enabled, the port is a number and the transport
    exists, [testGraylogConnection] answers success = true whatever the
    state of the connection; while the transport is disconnected the probe
    is merely appended to the queue and no datagram is sent. *)
Theorem testGraylogConnection_success_is_local (now : Z) (uuid : string)
    (direct : DirectOutcome) (m : LoggerModule) (t : GraylogTransport) (p : Z) :
  enabled (graylogConfig m) = true →
  cfg_port (graylogConfig m) = Some p →
  graylogTransport m = Some t →
  let res := testGraylogConnection encode now uuid direct m in
  success res.1 = true ∧
  message res.1 = established ("test-" +:+ pretty now) ∧
  (connected t = false →
   node res.2 = node m ∧
   ∃ t' probe, graylogTransport res.2 = Some t' ∧ connected t' = false ∧
               last (buffer t') = Some {| log := VObj probe; callback := 0%nat |} ∧
               probe !! "_test_id" = Some (VStr ("test-" +:+ pretty now))).
Proof.
  intros He Hp Ht res. subst res. unfold testGraylogConnection, parsePort.
  rewrite He, Hp, Ht. simpl negb. cbv iota zeta.
  match goal with |- context [formatLog ?d ?n ?u (VObj ?o) ?l] =>
    set (probe0 := o);
    pose proof (formatLog_structured d n u (VObj probe0) l eq_refl) as Hf;
    cbv zeta in Hf; rewrite Hf; clear Hf end.
  match goal with |- context [write encode (VObj ?r) _ _ _] => set (testLog := r) end.
  split; [done|]. split; [done|].
  intros Hd. rewrite (write_not_connected encode) by auto.
  cbn [fst snd with_transport node graylogTransport].
  split; [done|]. exists (set_buffer
     ((if (length (buffer t) <? maxBufferSize t)%nat then buffer t else drop 1 (buffer t)) ++
      [{| log := VObj testLog; callback := 0%nat |}]) t), testLog.
  split; [done|]. split; [done|]. split; [apply last_snoc|].
  subst testLog. cbn [own_props].
  destruct (truthy _); [rewrite lookup_insert_ne by done|];
    (apply lookup_union_Some_l; rewrite !lookup_delete_ne by done;
     subst probe0; by simplify_map_eq).
Qed.

(** ** Levels and configuration *)

(** X19: the filter is monotone in severity: if a level passes, every more
    severe (numerically smaller) level passes too, whatever is configured. *)
Theorem shouldLog_monotone (e : Environment) (level level' : Z) :
  shouldLog e level = true → level' ≤ level → shouldLog e level' = true.
Proof.
  unfold shouldLog. destruct (LOG_LEVELS !! _); [|done].
  intros H%Z.leb_le Hle. apply Z.leb_le. lia.
Qed.

Lemma LOG_LEVEL_NAMES_lookup (v : Z) :
  LOG_LEVEL_NAMES !! v =
    if decide (v = 2) then Some "fatal"
    else if decide (v = 3) then Some "error"
    else if decide (v = 4) then Some "warn"
    else if decide (v = 6) then Some "info"
    else if decide (v = 7) then Some "debug"
    else None.
Proof.
  unfold LOG_LEVEL_NAMES.
  repeat (case_decide; [subst; reflexivity|]).
  rewrite !lookup_insert_ne by congruence. apply lookup_singleton_ne. congruence.
Qed.

(** X20: [LOG_LEVEL_NAMES] is the inverse of [LOG_LEVELS]: a name maps to a
    number exactly when that number maps back to the name. *)
Theorem LOG_LEVEL_NAMES_inverse (name : string) (v : Z) :
  LOG_LEVELS !! name = Some v ↔ LOG_LEVEL_NAMES !! v = Some name.
Proof.
  rewrite LOG_LEVELS_lookup, LOG_LEVEL_NAMES_lookup. split.
  - repeat (destruct (decide (name = _)) as [->|]; [intros [= <-]; reflexivity|]). done.
  - repeat (destruct (decide (v = _)) as [->|]; [intros [= <-]; reflexivity|]). done.
Qed.

(** X21: a variable that is unset reads as the empty string, so Graylog is
    enabled exactly when GRAYLOG_ENABLED is set to a non-empty string,
    whatever the string says, and an unset or empty GRAYLOG_LOG_LEVEL gives
    the "info" threshold. *)
Theorem environment_flags (Number : string → option Z) (penv : gmap string string) :
  let e := environment_of Number penv in
  (enabled (graylogConfig_of e) = true ↔
     ∃ s, penv !! "GRAYLOG_ENABLED" = Some s ∧ s ≠ "") ∧
  (penv !! "GRAYLOG_LOG_LEVEL" = None ∨ penv !! "GRAYLOG_LOG_LEVEL" = Some "" →
   ∀ level, shouldLog e level = (level <=? 6)) ∧
  (∀ name, penv !! name = None → getEnvironmentVariable penv name = "").
Proof.
  intros e. subst e. unfold enabled, graylogConfig_of, environment_of. simpl.
  split; [|split].
  - unfold getEnvironmentVariable.
    destruct (penv !! "GRAYLOG_ENABLED") as [s|]; simpl.
    + destruct (String.eqb_spec s ""); simpl; split; try done.
      * intros (s' & [= <-] & Hne). done.
      * intros _. eauto.
    + split; [done|]. by intros (s' & ? & _).
  - intros H level. unfold shouldLog, getEnvironmentVariable. simpl.
    by destruct H as [-> | ->].
  - intros name H. unfold getEnvironmentVariable. by rewrite H.
Qed.

(** X22: [configureLogger] starts again from the defaults on every call:
    after [configureLogger(c1); configureLogger(c2)] a key reads as [c2]'s
    value when [c2] has it (even if that value is undefined) and as the
    default otherwise, so a key set only by the earlier call is back at its
    default; every key of the default configuration is always present. *)
Theorem configureLogger_replaces (c1 c2 cur : gmap string JsValue) (key : string) :
  let cfg := config.configureLogger c2 (config.configureLogger c1 cur) in
  config.getValue cfg key =
    match c2 !! key with
    | Some v => v
    | None => config.getValue config.defaultConfig key
    end ∧
  (c2 !! key = None → config.getValue cfg key = config.getValue config.defaultConfig key) ∧
  dom config.defaultConfig ⊆ dom (config.getConfig cfg).
Proof.
  intros cfg. subst cfg. unfold config.configureLogger, config.getValue, config.getConfig, get.
  rewrite lookup_union. split; [|split].
  - by destruct (c2 !! key), (config.defaultConfig !! key).
  - intros ->. by destruct (config.defaultConfig !! key).
  - rewrite dom_union_L. apply union_subseteq_r.
Qed.

(** ** From the queue to the wire *)

(** X23: in every state the transport can reach, whatever sequence of
    writes, timers, completions, socket errors and closes led there, the
    capacity is 100 and the queue holds at most 100 entries. *)
Theorem queue_never_exceeds_capacity (w : World) (inputs : list Input) :
  reachable encode w →
  maxBufferSize (run encode inputs w).1 = 100%nat ∧
  (length (buffer (run encode inputs w).1) ≤ 100)%nat.
Proof.
  intros Hreach. apply (reachable_queue_bounded encode). by apply reachable_run.
Qed.


End FurtherProperties.

(** * Further concrete runs *)

Lemma formatLog_keeps_envelope_keys_witness :
  ∃ r, formatLog (defaultLogValues module_warn) 1700000000000 "c0ffee" sample_object 6 = Ok r ∧
       Forall (fun k => is_Some (r !! k))
         ["version"; "host"; "short_message"; "timestamp"; "level"; "_correlation_id";
          "_application_name"; "_environment"; "_product"; "_service_name"; "_service_version"].
Proof.
  eexists. split; [reflexivity|].
  exact (formatLog_keeps_envelope_keys (graylogConfig module_warn) "web-1"
           1700000000000 "c0ffee" sample_object 6 _ eq_refl).
Defined.


Lemma formatLog_fields_pass_through_witness :
  ∃ r, formatLog (defaultLogValues module_warn) 1700000000000 "c0ffee" sample_object 6 = Ok r ∧
       r !! "level" = Some (VNum 1) ∧ r !! "msg" = None.
Proof.
  eexists. split; [reflexivity|].
  destruct (formatLog_fields_pass_through (graylogConfig module_warn) "web-1"
              1700000000000 "c0ffee" sample_object 6 _ eq_refl eq_refl) as (Hpass & Hmsg & _).
  split; [|exact Hmsg].
  apply Hpass; [|reflexivity].
  apply (bool_decide_unpack _). vm_compute. exact I.
Defined.

Lemma formatLog_short_message_chain_witness :
  ∃ r, formatLog (defaultLogValues module_warn) 1700000000000 "c0ffee" sample_object 6 = Ok r ∧
       r !! "short_message" = Some (VStr "order shipped").
Proof.
  eexists. split; [reflexivity|].
  exact (formatLog_short_message_chain (defaultLogValues module_warn)
           1700000000000 "c0ffee" sample_object 6 _ eq_refl eq_refl).
Defined.

Lemma formatLog_full_message_chain_witness :
  ∃ r, formatLog (defaultLogValues module_warn) 1700000000000 "c0ffee" sample_object 6 = Ok r ∧
       r !! "full_message" = Some (VStr "parcel 42").
Proof.
  eexists. split; [reflexivity|].
  exact (formatLog_full_message_chain (graylogConfig module_warn) "web-1"
           1700000000000 "c0ffee" sample_object 6 _ eq_refl eq_refl).
Defined.

Lemma formatLog_correlation_id_witness :
  ∃ r, formatLog (defaultLogValues module_warn) 1700000000000 "c0ffee" sample_object 6 = Ok r ∧
       r !! "_correlation_id" = Some (VStr "").
Proof.
  eexists. split; [reflexivity|].
  exact (formatLog_correlation_id (defaultLogValues module_warn)
           1700000000000 "c0ffee" sample_object 6 _ eq_refl).
Defined.

Lemma context_fields_override_witness :
  ∃ r, emit_log toy_encode Lerror (Some {[ "level" := VNum 7 ]}) 1700000000000 "c0ffee" None
         (VStr "disk full") [] module_warn =
         Ok (sendToGraylog toy_encode r
               (with_node (emit (PinoCall "error" r []) (node module_warn)) module_warn)) ∧
       r !! "level" = Some (VNum 7).
Proof.
  destruct (context_fields_override toy_encode Lerror {[ "level" := VNum 7 ]}
              1700000000000 "c0ffee" (VStr "disk full") [] module_warn _ eq_refl eq_refl)
    as ((r & Hr & Hover & _) & _).
  exists r. split; [exact Hr|]. apply Hover. reflexivity.
Defined.


Lemma emit_without_transport_witness :
  ∃ m', emit_log toy_encode Linfo None 1700000000000 "c0ffee" None (VStr "started") []
          module_disabled = Ok m' ∧
        datagrams (effects (node m')) = datagrams (effects (node module_disabled)) ∧
        open_sockets (node m') = open_sockets (node module_disabled).
Proof.
  eexists. split; [reflexivity|].
  destruct (emit_without_transport toy_encode Linfo None 1700000000000 "c0ffee" None
              (VStr "started") [] module_disabled _ (or_introl eq_refl) eq_refl)
    as (_ & _ & Ho & _ & Hd & _).
  split; [exact Hd|exact Ho].
Defined.




Lemma at_most_one_reconnect_timer_witness :
  reachable toy_encode world_draining ∧
  (length (reconnect_timers (timers world_draining.2)) ≤ 1)%nat.
Proof.
  assert (Hreach : reachable toy_encode world_draining).
  { apply reachable_run. apply reachable_new. }
  split; [exact Hreach|].
  exact (proj1 (at_most_one_reconnect_timer toy_encode world_draining Hreach)).
Defined.

Lemma failed_reconnect_keeps_waiting_witness :
  awaiting_reconnect world_disconnected ∧
  awaiting_reconnect (failedReconnect toy_encode "EMFILE" world_disconnected).
Proof.
  assert (Hw : awaiting_reconnect world_disconnected).
  { split; [reflexivity|]. exists 0%nat. split; [reflexivity|].
    apply (bool_decide_unpack _). vm_compute. exact I. }
  split; [exact Hw|].
  exact (proj1 (failed_reconnect_keeps_waiting toy_encode "EMFILE" world_disconnected Hw)).
Defined.

Lemma reconnect_leaves_old_socket_open_witness :
  let w' := setupConnection toy_encode None world_connected.1 world_connected.2 in
  client w'.1 = Some 1%nat ∧ 0%nat ∈ open_sockets (close w'.1 w'.2).
Proof.
  intros w'.
  assert (Hopen : 0%nat ∈ open_sockets world_connected.2).
  { apply (bool_decide_unpack _). vm_compute. exact I. }
  destruct (reconnect_leaves_old_socket_open toy_encode world_connected 0
              (reachable_new toy_encode "graylog.local" 12201 None) eq_refl Hopen)
    as (Hc & _ & _ & Hleak).
  split; [exact Hc|exact Hleak].
Defined.

Lemma only_close_closes_sockets_witness :
  open_sockets world_connected.2 ⊆
  open_sockets (step toy_encode (InSocketError "ECONNREFUSED") world_connected).2.
Proof.
  apply (only_close_closes_sockets toy_encode (InSocketError "ECONNREFUSED") world_connected).
  discriminate.
Defined.

Lemma close_is_not_terminal_witness :
  let w := write toy_encode (VStr "last words") 1 world_connected.1 world_connected.2 in
  let n1 := close w.1 w.2 in
  let w2 := sendCompleted (Some "ECANCELED") w.1 n1 in
  let tm := {| timer_id := next_timer w.2; timer_kind := Reconnect; timer_delay := 30000 |} in
  let w3 := fireTimer toy_encode tm None w2.1 w2.2 in
  connected w3.1 = true ∧ next_socket w.2 ∈ open_sockets w3.2.
Proof.
  intros w n1 w2 tm w3.
  destruct (close_is_not_terminal toy_encode w.1 w.2 "ECANCELED" (0%nat, "last words") []
              eq_refl) as (_ & _ & Hc & _ & Ho & _).
  split; [exact Hc|exact Ho].
Defined.

Lemma testGraylogConnection_success_is_local_witness :
  let res := testGraylogConnection toy_encode 1700000000000 "c0ffee" (DirectSendDone false)
               module_offline in
  success res.1 = true ∧ node res.2 = node module_offline.
Proof.
  intros res.
  destruct (testGraylogConnection_success_is_local toy_encode 1700000000000 "c0ffee"
              (DirectSendDone false) module_offline world_disconnected.1 12201
              eq_refl eq_refl eq_refl) as (Hs & _ & Hq).
  split; [exact Hs|]. exact (proj1 (Hq eq_refl)).
Defined.

Lemma shouldLog_monotone_witness :
  shouldLog (env module_warn) 2 = true.
Proof.
  apply (shouldLog_monotone (env module_warn) 4 2); [reflexivity|lia].
Defined.

Lemma LOG_LEVEL_NAMES_inverse_witness :
  LOG_LEVEL_NAMES !! 4 = Some "warn".
Proof.
  exact (proj1 (LOG_LEVEL_NAMES_inverse "warn" 4) eq_refl).
Defined.

Lemma environment_flags_witness :
  enabled (graylogConfig_of
             (environment_of (fun _ => None) {[ "GRAYLOG_ENABLED" := "false" ]})) = true.
Proof.
  apply (proj1 (environment_flags (fun _ => None) {[ "GRAYLOG_ENABLED" := "false" ]})).
  exists "false". split; [reflexivity|discriminate].
Defined.

Lemma configureLogger_replaces_witness :
  config.getValue
    (config.configureLogger {[ "graylogHost" := VStr "logs.example" ]}
       (config.configureLogger {[ "logLevel" := VStr "debug" ]} config.defaultConfig))
    "logLevel" = VStr "info".
Proof.
  exact (proj1 (proj2 (configureLogger_replaces {[ "logLevel" := VStr "debug" ]}
                         {[ "graylogHost" := VStr "logs.example" ]} config.defaultConfig
                         "logLevel")) eq_refl).
Defined.

Lemma queue_never_exceeds_capacity_witness :
  reachable toy_encode world_disconnected ∧
  (length (buffer (run toy_encode closed_mid_drain world_disconnected).1) ≤ 100)%nat.
Proof.
  assert (Hreach : reachable toy_encode world_disconnected) by apply reachable_new.
  split; [exact Hreach|].
  exact (proj2 (queue_never_exceeds_capacity toy_encode world_disconnected closed_mid_drain
                  Hreach)).
Defined.

